(** * AndroidDependencies: download and lookup of Crosswalk distributions

    A shallow embedding of [src/android/lib/AndroidDependencies.js]:
    the constructor with its channel validation, the static [CHANNELS]
    property, [fetchVersions], [findLocally], [download] and [downloadWebP],
    and of the operations of [Main] that use them: [collectArgs],
    [instantiatePlatform], [create], [update] and [build].

    The JavaScript is callback driven and works on the file system, the
    process environment and the network.  Here those are explicit: an
    operation is a function on a [World] (the files that exist and the trace
    of calls made to the collaborators), it may end with a thrown exception,
    and the function handed to [downloader.get] is a definition of its own
    that runs after the synchronous part has returned. *)

From Stdlib Require Import ZArith QArith Ascii.
From stdpp Require Import base option strings list gmap.

(** ** JavaScript values *)

(** A value that is a string, or [undefined] / [null]. *)
Abbreviation jsstring := (option string).

(** [if (v)]: [undefined], [null] and the empty string are falsy. *)
Definition truthy (v : jsstring) : bool :=
  match v with
  | Some s => bool_decide (s ≠ EmptyString)
  | None => false
  end.

(** ["..." + v]: string conversion inside a concatenation. *)
Definition to_str (v : jsstring) : string :=
  match v with
  | Some s => s
  | None => "undefined"
  end.

(** ** Exceptions and results *)

Inductive exn : Type :=
| InvalidChannelError (message : string)
| FileCreationFailed (message : string)
| OtherError (message : string).

Inductive Result (A : Type) : Type :=
| Ok (a : A)
| Throw (e : exn).
Arguments Ok {A} a.
Arguments Throw {A} e.

(** ** The store of arrays

    A JavaScript array is an object: a variable holds a reference to it, and
    whoever holds the reference can change the array in place. *)

Definition loc : Type := nat.
Abbreviation Store := (gmap loc (list string)).

Definition deref (σ : Store) (ℓ : loc) : list string := default [] (σ !! ℓ).

(** [a.push(x)] *)
Definition Array_push (ℓ : loc) (x : string) (σ : Store) : Store :=
  alter (λ a, a ++ [x]) ℓ σ.

(** [a.indexOf(v)], with strict equality; [-1] when absent. *)
Fixpoint indexOf_from (a : list string) (v : jsstring) (i : Z) : Z :=
  match a with
  | [] => (-1)%Z
  | y :: a' => if decide (Some y = v) then i else indexOf_from a' v (i + 1)%Z
  end.

Definition indexOf (a : list string) (v : jsstring) : Z := indexOf_from a v 0%Z.

(** ** Module-level variables *)

Definition BASE_URL : string :=
  "https://download.01.org/crosswalk/releases/crosswalk/android/".

(** [var CHANNELS = ["stable", "beta", "canary"];] the variable is bound once,
    to the array allocated when the module is loaded. *)
Definition CHANNELS : loc := 0.

Definition module_load : Store := {[ CHANNELS := ["stable"; "beta"; "canary"] ]}.

(** ** Collaborators reached through [this._application]

    [util.IndexParser] is not part of this file; the resolver only calls
    [new util.IndexParser(buffer).parse()], which returns the versions or
    throws. *)
Record Application : Type := {
  IndexParser_parse : string → Result (list string)
}.

(** ** The constructor *)

Record AndroidDependencies_t : Type := {
  _application : Application;
  _channel : jsstring
}.

Definition AndroidDependencies (σ : Store) (application : Application)
    (channel : jsstring) : Result AndroidDependencies_t :=
  if truthy channel then
    if (indexOf (deref σ CHANNELS) channel =? -1)%Z then
      Throw (InvalidChannelError ("Unknown channel " +:+ to_str channel))
    else
      Ok {| _application := application; _channel := channel |}
  else
    Ok {| _application := application; _channel := None |}.

(** ** The static property [AndroidDependencies.CHANNELS]

    [get] returns the module's array itself, not a copy; [set] has an empty
    body. *)
Definition CHANNELS_get (σ : Store) : loc := CHANNELS.

Definition CHANNELS_set {A : Type} (config : A) (σ : Store) : Store := σ.

(** What a caller may assign to the property: any value. *)
Inductive value : Type :=
| VUndefined
| VString (s : string)
| VArray (a : list string).

(** [AndroidDependencies.CHANNELS = config], once for each value, in turn. *)
Definition assign_CHANNELS (configs : list value) (σ : Store) : Store :=
  foldl (λ σ' config, CHANNELS_set config σ') σ configs.

(** ** The world an operation runs in *)

(** Calls made to the collaborators, in the order they are made. *)
Inductive Event : Type :=
| ShellJS_test (path : string)
| output_info (message : string)
| output_createFiniteProgress (label : string)
| indicator_update (progress : Q)
| indicator_done (message : string)
| handler_createStream (path : string)
| handler_finish (cacheDir : jsstring)
| Downloader_new (url : string)
| Downloader_get
| fetchVersions_callback (versions : option (list string)) (errormsg : jsstring)
| download_callback (path : jsstring) (errormsg : jsstring).

(** The regular files that exist, named as the code names them, and the
    calls made so far. *)
Record World : Type := {
  files : gset string;
  trace : list Event
}.

(** What one transfer does: the progress values it reports, the chunks it
    writes to the stream, and the argument of the completion callback (an
    error message, or nothing on success). *)
Record Transfer : Type := {
  progress_values : list Q;
  chunks : list string;
  completion : jsstring
}.

(** What the operation reads but does not change: the environment variable
    [process.env.CROSSWALK_APP_TOOLS_CACHE_DIR], whether a file can be
    created at a path, and what the network will do. *)
Record Env : Type := {
  CROSSWALK_APP_TOOLS_CACHE_DIR : jsstring;
  can_create : string → bool;
  network : Transfer
}.

(** ** Operations on the world: state and exceptions *)

Definition M (A : Type) : Type := World → Result A * World.

Definition ret {A : Type} (a : A) : M A := λ w, (Ok a, w).

Definition bind {A B : Type} (m : M A) (f : A → M B) : M B := λ w,
  match m w with
  | (Ok a, w') => f a w'
  | (Throw e, w') => (Throw e, w')
  end.

Declare Scope M_scope.
Delimit Scope M_scope with M.
Bind Scope M_scope with M.
Notation "'let*' x ':=' m 'in' k" := (bind m (λ x, k))
  (at level 10, x name, m at level 100, k at level 200) : M_scope.
Notation "m ;; k" := (bind m (λ _, k))
  (at level 100, k at level 200, right associativity) : M_scope.
Local Open Scope M_scope.

Definition throw {A : Type} (e : exn) : M A := λ w, (Throw e, w).

Definition emit (e : Event) : M unit := λ w,
  (Ok tt, {| files := files w; trace := trace w ++ [e] |}).

Definition update_files (f : gset string → gset string) : M unit := λ w,
  (Ok tt, {| files := f (files w); trace := trace w |}).

(** [ShellJS.test("-f", path)] *)
Definition ShellJS_test_f (path : string) : M bool := λ w,
  (Ok (bool_decide (path ∈ files w)),
   {| files := files w; trace := trace w ++ [ShellJS_test path] |}).

(** ** [findLocally] *)

Definition findLocally (this : AndroidDependencies_t) (version : string)
    : M jsstring :=
  let filename := "crosswalk-" +:+ version +:+ ".zip" in
  let* here := ShellJS_test_f filename in
  if here then ret (Some filename)
  else
    let* parent := ShellJS_test_f ("../" +:+ filename) in
    if parent then ret (Some ("../" +:+ filename))
    else ret None.

(** ** Node's [Path] and the name of a download in progress *)

(** Modelled from the spec: [temp_name] is the temporary name under which
    [util.DownloadHandler], which is not among the sources, writes a download
    before renaming it into place; the spec says no more of it than that it
    is not the final name.  [Path.join] belongs to Node; of its result only
    this is used: joining a non-empty file name to a directory never gives
    the empty string. *)
Class Platform : Type := {
  Path_join : string → string → string;
  Path_join_nonempty : ∀ dir file, file ≠ EmptyString → Path_join dir file ≠ EmptyString;
  temp_name : string → string;
  temp_name_fresh : ∀ path, temp_name path ≠ path
}.

Section Resolver.
Context `{Platform}.

(** ** [util.DownloadHandler] *)

(** Modelled from the spec: [util.DownloadHandler] is not among the sources.
    A handler is made from a target directory and a file name. *)
Record DownloadHandler_t : Type := {
  _dirPath : string;
  _fileName : string
}.

(** [new util.DownloadHandler(defaultPath, filename)] *)
Definition DownloadHandler (dirPath fileName : string) : DownloadHandler_t :=
  {| _dirPath := dirPath; _fileName := fileName |}.

(** Where the finished download goes. *)
Definition final_path (handler : DownloadHandler_t) : string :=
  Path_join (_dirPath handler) (_fileName handler).

(** Modelled from the spec: [DownloadHandler.findLocally] is not among the
    sources.  It searches the candidate directories in the order given for
    an existing file of the handler's name; the first match wins, and the
    check is whether the file exists. *)
Fixpoint DownloadHandler_findLocally (handler : DownloadHandler_t)
    (localDirs : list string) : M jsstring :=
  match localDirs with
  | [] => ret None
  | dir :: rest =>
      let path := Path_join dir (_fileName handler) in
      let* found := ShellJS_test_f path in
      if found then ret (Some path)
      else DownloadHandler_findLocally handler rest
  end.

(** Modelled from the spec: [DownloadHandler.createStream] is not among the
    sources.  It opens a writable stream for the new download, under the
    temporary name; when the file cannot be created it throws
    [FileCreationFailed], as the documentation of [download] says. *)
Definition DownloadHandler_createStream (env : Env) (handler : DownloadHandler_t)
    : M unit :=
  let path := temp_name (final_path handler) in
  if can_create env path then
    emit (handler_createStream path);;
    update_files (λ fs, fs ∪ {[path]})
  else
    throw (FileCreationFailed path).

(** Modelled from the spec: [DownloadHandler.finish] is not among the
    sources.  It renames the temporary file into place and, when a cache
    directory is given, also puts a copy there; it returns the path of the
    finished file. *)
Definition DownloadHandler_finish (handler : DownloadHandler_t)
    (cacheDir : jsstring) : M string :=
  let path := final_path handler in
  emit (handler_finish cacheDir);;
  update_files (λ fs, (fs ∖ {[temp_name path]}) ∪ {[path]});;
  (if truthy cacheDir then
     update_files (λ fs, fs ∪ {[Path_join (to_str cacheDir) (_fileName handler)]})
   else ret tt);;
  ret path.

(** ** [util.Downloader] *)

(** Modelled from the spec: [util.Downloader] is not among the sources.  Its
    [progress] callback receives the completion fractions of the transfer,
    one after the other. *)
Fixpoint report_progress (progress_cb : Q → M unit) (values : list Q) : M unit :=
  match values with
  | [] => ret tt
  | progress :: rest => progress_cb progress;; report_progress progress_cb rest
  end.

(** Modelled from the spec: [util.Downloader] is not among the sources.
    Once [get] has been called, and after the caller has returned, the
    transfer reports its progress, writes to the stream, and calls the
    completion callback once, with an error message or with nothing. *)
Definition Downloader_transfer (env : Env) (progress_cb : Q → M unit)
    (get_cb : jsstring → M unit) : M unit :=
  report_progress progress_cb (progress_values (network env));;
  get_cb (completion (network env)).

(** How a call and the callback it leaves behind end. *)
Inductive Outcome : Type :=
| Returned
| ThrownToCaller (e : exn)
| UncaughtInCallback (e : exn).

(** A call runs to its return; what it handed to [downloader.get] runs
    afterwards, from the event loop, where nobody catches what it throws. *)
Definition run (body : M (option (M unit))) (w : World) : Outcome * World :=
  match body w with
  | (Throw e, w1) => (ThrownToCaller e, w1)
  | (Ok None, w1) => (Returned, w1)
  | (Ok (Some pending), w1) =>
      match pending w1 with
      | (Throw e, w2) => (UncaughtInCallback e, w2)
      | (Ok _, w2) => (Returned, w2)
      end
  end.

(** ** [fetchVersions] *)

Definition fetchVersions_url (this : AndroidDependencies_t) : string :=
  BASE_URL +:+ to_str (_channel this) +:+ "/".

(** [stream.on("data", ...)]: [buffer += data.toString()] for every chunk. *)
Definition received (env : Env) : string :=
  fold_left (λ buffer data, buffer +:+ data) (chunks (network env)) EmptyString.

(** The function given to [downloader.get]. *)
Definition fetchVersions_get_cb (this : AndroidDependencies_t) (buffer : string)
    (errormsg : jsstring) : M unit :=
  emit (indicator_done EmptyString);;
  if truthy errormsg then
    emit (fetchVersions_callback None errormsg)
  else
    match IndexParser_parse (_application this) buffer with
    | Ok versions => emit (fetchVersions_callback (Some versions) None)
    | Throw e => throw e
    end.

Definition fetchVersions_body (env : Env) (this : AndroidDependencies_t)
    : M (option (M unit)) :=
  let url := fetchVersions_url this in
  emit (Downloader_new url);;
  let label := "Fetching '" +:+ to_str (_channel this) +:+ "' versions index" in
  emit (output_createFiniteProgress label);;
  emit Downloader_get;;
  ret (Some (Downloader_transfer env
               (λ progress, emit (indicator_update progress))
               (fetchVersions_get_cb this (received env)))).

Definition fetchVersions (env : Env) (this : AndroidDependencies_t)
    : World → Outcome * World :=
  run (fetchVersions_body env this).

(** ** [download] *)

Definition download_filename (version : string) : string :=
  "crosswalk-" +:+ version +:+ ".zip".

Definition download_url (this : AndroidDependencies_t) (version : string) : string :=
  BASE_URL +:+ to_str (_channel this) +:+ "/" +:+ version +:+ "/" +:+
  download_filename version.

(** [var localDirs = [defaultPath, ""]], and the cache directory pushed when
    the environment variable is truthy. *)
Definition download_localDirs (env : Env) (defaultPath : string) : list string :=
  let localDirs := [defaultPath; EmptyString] in
  if truthy (CROSSWALK_APP_TOOLS_CACHE_DIR env) then
    localDirs ++ [to_str (CROSSWALK_APP_TOOLS_CACHE_DIR env)]
  else localDirs.

(** The function given to [downloader.get]. *)
Definition download_get_cb (env : Env) (handler : DownloadHandler_t)
    (errormsg : jsstring) : M unit :=
  emit (indicator_done EmptyString);;
  if truthy errormsg then
    emit (download_callback None errormsg)
  else
    let* finishedPath :=
      DownloadHandler_finish handler (CROSSWALK_APP_TOOLS_CACHE_DIR env) in
    emit (download_callback (Some finishedPath) None).

Definition download_body (env : Env) (this : AndroidDependencies_t)
    (version defaultPath : string) : M (option (M unit)) :=
  let filename := download_filename version in
  let url := download_url this version in
  let handler := DownloadHandler defaultPath filename in
  let localDirs := download_localDirs env defaultPath in
  let* localPath := DownloadHandler_findLocally handler localDirs in
  if truthy localPath then
    emit (output_info ("Using cached " +:+ to_str localPath));;
    emit (download_callback localPath None);;
    ret None
  else
    let label := "Downloading '" +:+ to_str (_channel this) +:+ "' " +:+ version in
    emit (output_createFiniteProgress label);;
    DownloadHandler_createStream env handler;;
    emit (Downloader_new url);;
    emit Downloader_get;;
    ret (Some (Downloader_transfer env
                 (λ progress, emit (indicator_update progress))
                 (download_get_cb env handler))).

Definition download (env : Env) (this : AndroidDependencies_t)
    (version defaultPath : string) : World → Outcome * World :=
  run (download_body env this version defaultPath).

End Resolver.

(** ** Reading a trace *)

(** What a run added to the trace. *)
Definition new_events (w w' : World) : list Event :=
  drop (length (trace w)) (trace w').

Definition is_download_callback (e : Event) : bool :=
  match e with download_callback _ _ => true | _ => false end.

Definition is_fetchVersions_callback (e : Event) : bool :=
  match e with fetchVersions_callback _ _ => true | _ => false end.

(** A network request: a [Downloader] constructed, or its [get] called. *)
Definition is_network (e : Event) : bool :=
  match e with Downloader_new _ | Downloader_get => true | _ => false end.

Definition is_get (e : Event) : bool :=
  match e with Downloader_get => true | _ => false end.

Definition is_test (e : Event) : bool :=
  match e with ShellJS_test _ => true | _ => false end.

Definition is_finish (e : Event) : bool :=
  match e with handler_finish _ => true | _ => false end.

Definition select (p : Event → bool) (evs : list Event) : list Event :=
  List.filter p evs.

(** The world after more calls, the files as they were. *)
Definition logged (w : World) (evs : list Event) : World :=
  {| files := files w; trace := trace w ++ evs |}.

(** The probes a search makes in the given directories. *)
Definition probes `{Platform} (fileName : string) (dirs : list string) : list Event :=
  map (λ dir, ShellJS_test (Path_join dir fileName)) dirs.

(** A file of the name is in the directory. *)
Definition present `{Platform} (w : World) (fileName dir : string) : Prop :=
  Path_join dir fileName ∈ files w.

#[global] Instance present_dec `{Platform} (w : World) (fileName dir : string) :
  Decision (present w fileName dir).
Proof. unfold present. apply _. Defined.

(** ** A platform, a parser and a network to run the model on *)

Definition plain_join (dir file : string) : string :=
  if decide (dir = EmptyString) then file else dir +:+ "/" +:+ file.

Definition part_name (path : string) : string := path +:+ ".part".

#[global, refine] Instance plain_platform : Platform :=
  {| Path_join := plain_join; temp_name := part_name |}.
Proof.
  - intros dir file Hfile. unfold plain_join. case_decide as Hdir; [done |].
    destruct dir; [done | discriminate].
  - intros path Heq. unfold part_name in Heq.
    assert (∀ s t : string,
      String.length (s +:+ t) = (String.length s + String.length t)%nat) as Happ.
    { intros s t. induction s as [|c s IH]; simpl; [done | by rewrite IH]. }
    apply (f_equal String.length) in Heq. rewrite Happ in Heq. simpl in Heq. lia.
Defined.

Definition newline : ascii := ascii_of_nat 10.

(** One version per line; empty lines are dropped. *)
Fixpoint lines_from (current : string) (s : string) : list string :=
  match s with
  | EmptyString =>
      if decide (current = EmptyString) then [] else [current]
  | String c s' =>
      if decide (c = newline) then
        (if decide (current = EmptyString) then [] else [current]) ++
        lines_from EmptyString s'
      else lines_from (current +:+ String c EmptyString) s'
  end.

Definition lines_app : Application :=
  {| IndexParser_parse := λ buffer, Ok (lines_from EmptyString buffer) |}.

(** A parser that refuses its input. *)
Definition strict_app : Application :=
  {| IndexParser_parse := λ buffer, Throw (OtherError "ParseError") |}.

Definition empty_world : World := {| files := ∅; trace := [] |}.

Definition transfer_ok : Transfer :=
  {| progress_values := [(1 # 2)%Q; 1%Q];
     chunks := ["14.43.343.25" +:+ String newline EmptyString;
                "14.44.360.4" +:+ String newline EmptyString];
     completion := None |}.

Definition transfer_failed : Transfer :=
  {| progress_values := [(1 # 2)%Q];
     chunks := ["14.43"];
     completion := Some "Download failed" |}.

Definition env_of (cache : jsstring) (writable : bool) (t : Transfer) : Env :=
  {| CROSSWALK_APP_TOOLS_CACHE_DIR := cache;
     can_create := λ _, writable;
     network := t |}.

Definition stable_resolver : AndroidDependencies_t :=
  {| _application := lines_app; _channel := Some "stable" |}.

(** ** More ways to read a trace *)

(** A call on the progress indicator. *)
Definition is_indicator (e : Event) : bool :=
  match e with indicator_update _ | indicator_done _ => true | _ => false end.

(** ** [downloadWebP]

    The part of [downloadWebP] that decides what is removed, requested and
    reported.  The answers of [ShellJS.test], the outcome of the extraction
    and the functions of Node's [Path] are given from outside; the download
    handler and the downloader are the ones modelled above. *)

(** [Path.dirname], [Path.basename] with an extension to strip, and the
    directory of the module, [__dirname]. *)
Class NodePaths : Type := {
  Path_dirname : string → string;
  Path_basename : string → string → string;
  __dirname : string
}.

Definition downloadWebP_filename (platform arch version : string) : string :=
  if decide (platform = "windows") then
    let arch := if decide (arch = "ia32") then "x86" else arch in
    let ext := ".zip" in
    "libwebp-" +:+ version +:+ "-" +:+ platform +:+ "-" +:+ arch +:+ ext
  else if decide (platform = "linux") then
    let arch := if decide (arch = "ia32") then "x86-32" else arch in
    let arch := if decide (arch = "x64") then "x86-64" else arch in
    let ext := ".tar.gz" in
    "libwebp-" +:+ version +:+ "-" +:+ platform +:+ "-" +:+ arch +:+ ext
  else if decide (platform = "mac") then
    let ext := ".tar.gz" in
    "libwebp-" +:+ version +:+ "-" +:+ platform +:+ ext
  else EmptyString.

Definition downloadWebP_url (platform arch version : string) : string :=
  "http://downloads.webmproject.org/releases/webp/" +:+
  downloadWebP_filename platform arch version.

(** Calls made by [downloadWebP], in the order they are made. *)
Inductive WebPEvent : Type :=
| webp_test (path : string)
| webp_rm (options path : string)
| webp_createFiniteProgress (label : string)
| webp_createStream (path : string)
| webp_Downloader_new (url : string)
| webp_Downloader_get
| webp_indicator_update (progress : Q)
| webp_indicator_done (message : string)
| webp_finish (cacheDir : jsstring)
| webp_extract (archive dest : string)
| webp_setTimeout (delay : nat)
| webp_cp (source dest : string)
| webp_output_error (message : string)
| webp_callback (path : jsstring) (errormsg : jsstring).

(** What the surroundings answer during one call: [OS.platform()] and
    [OS.arch()], the two results of [ShellJS.test("-e", ...)], and how the
    extraction ends (nothing when it succeeds, else the [stack] of the
    error). *)
Record WebPRun : Type := {
  OS_platform : string;
  OS_arch : string;
  file_there : bool;
  extract_there : bool;
  extraction : option jsstring
}.

Section WebP.
Context `{Platform} `{NodePaths}.

(** [Path.join(Path.dirname(p), Path.basename(p, ext))], with [".zip"] on
    windows and [".tar.gz"] elsewhere. *)
Definition downloadWebP_extractPath (platform path : string) : string :=
  if decide (platform = "windows") then
    Path_join (Path_dirname path) (Path_basename path ".zip")
  else
    Path_join (Path_dirname path) (Path_basename path ".tar.gz").

(** The function given to [downloader.get]. *)
Definition downloadWebP_get_cb (env : Env) (r : WebPRun)
    (handler : DownloadHandler_t) (defaultPath : string)
    (errormsg : jsstring) : list WebPEvent :=
  [webp_indicator_done EmptyString] ++
  if truthy errormsg then
    [webp_callback None errormsg]
  else
    let finishedPath := final_path handler in
    let platform := OS_platform r in
    let extractPath := downloadWebP_extractPath platform finishedPath in
    let cwebpName :=
      if decide (platform = "windows") then "cwebp.exe" else "cwebp" in
    [webp_finish (CROSSWALK_APP_TOOLS_CACHE_DIR env);
     webp_extract finishedPath defaultPath] ++
    match extraction r with
    | None =>
        let webpPath :=
          Path_join (Path_join (Path_dirname (Path_dirname __dirname)) "src")
            cwebpName in
        [webp_setTimeout 1000;
         webp_cp (Path_join (Path_join extractPath "bin") cwebpName) webpPath;
         webp_callback (Some webpPath) None]
    | Some stack =>
        [webp_output_error
           ("Fail to extract " +:+ finishedPath +:+
            String newline EmptyString +:+ to_str stack)]
    end.

Definition downloadWebP (env : Env) (r : WebPRun)
    (this : AndroidDependencies_t) (version defaultPath : string)
    : Outcome * list WebPEvent :=
  let platform := OS_platform r in
  let filename := downloadWebP_filename platform (OS_arch r) version in
  let url := downloadWebP_url platform (OS_arch r) version in
  let filePath := Path_join defaultPath filename in
  let extractPath := downloadWebP_extractPath platform filePath in
  let handler := DownloadHandler defaultPath filename in
  let label := "Downloading WebP " +:+ version in
  let before_stream :=
    [webp_test filePath] ++
    (if file_there r then [webp_rm "-f" filePath] else []) ++
    [webp_test extractPath] ++
    (if extract_there r then [webp_rm "-rf" extractPath] else []) ++
    [webp_createFiniteProgress label] in
  if can_create env (temp_name (final_path handler)) then
    (Returned,
     before_stream ++
     [webp_createStream (temp_name (final_path handler));
      webp_Downloader_new url; webp_Downloader_get] ++
     map webp_indicator_update (progress_values (network env)) ++
     downloadWebP_get_cb env r handler defaultPath (completion (network env)))
  else
    (ThrownToCaller (FileCreationFailed (temp_name (final_path handler))),
     before_stream).

End WebP.

Definition is_webp_callback (e : WebPEvent) : bool :=
  match e with webp_callback _ _ => true | _ => false end.

Definition is_webp_get (e : WebPEvent) : bool :=
  match e with webp_Downloader_get => true | _ => false end.

Definition is_webp_rm (e : WebPEvent) : bool :=
  match e with webp_rm _ _ => true | _ => false end.

Definition is_webp_error (e : WebPEvent) : bool :=
  match e with webp_output_error _ => true | _ => false end.

(** Has the step been reached that hands the download over: [finish],
    extraction, copy. *)
Definition is_webp_finishing (e : WebPEvent) : bool :=
  match e with
  | webp_finish _ | webp_extract _ _ | webp_cp _ _ => true
  | _ => false
  end.

(** ** [Main.collectArgs] *)

(** [s.substring(n)]: the string without its first [n] characters. *)
Fixpoint substring_from (n : nat) (s : string) : string :=
  match n, s with
  | O, _ => s
  | S n', String _ s' => substring_from n' s'
  | S _, EmptyString => EmptyString
  end.

Section collectArgs.
(** The values command-line arguments have, and which of them are truthy. *)
Context {V : Type} (truthy_value : V → bool).

(** [args[argName] = v] on a plain object: an own property, except under the
    name [__proto__], which names the prototype and makes no own property. *)
Definition set_property (args : gmap string V) (argName : string) (v : V)
    : gmap string V :=
  if decide (argName = "__proto__") then args else <[argName := v]> args.

(** The name an argument is collected under. *)
Definition collectArgs_argName (platformId key : string) : string :=
  let key_ := substring_from (String.length "--") key in
  let argPrefix := platformId +:+ "-" in
  substring_from (String.length argPrefix) key_.

(** One round of the loop.  [allArgs] is absent ([null]) or gives the value
    of [allArgs[name]], if any. *)
Definition collectArgs_step (platformId : string)
    (allArgs : option (string → option V))
    (args : gmap string V) (key : string) : gmap string V :=
  let key_ := substring_from (String.length "--") key in
  match allArgs with
  | Some object =>
      match object key_ with
      | Some v =>
          if truthy_value v then
            let argPrefix := platformId +:+ "-" in
            let argName := substring_from (String.length argPrefix) key_ in
            set_property args argName v
          else args
      | None => args
      end
  | None => args
  end.

(** [argsSpec] is given by its keys, in the order [for (var key in argsSpec)]
    visits them. *)
Definition Main_collectArgs (platformId : string)
    (allArgs : option (string → option V)) (argsSpec : list string)
    : gmap string V :=
  foldl (collectArgs_step platformId allArgs) ∅ argsSpec.

End collectArgs.

(** ** [Main]: [instantiatePlatform], [create], [update], [build]

    [PlatformsManager] and the platform backends are not in this file.
    [mgr.loadDefault()] answers with a platform description or with [null];
    the description creates the project object, whose [argSpec] is given by
    the keys of its entries [create] and [update]. *)

Definition MAIN_EXIT_CODE_OK : Z := 0.
Definition MAIN_EXIT_CODE_ERROR : Z := 127.

Record ArgSpec : Type := {
  argSpec_create : option (list string);
  argSpec_update : option (list string)
}.

Record Project : Type := {
  project_platformId : string;
  project_argSpec : option ArgSpec;
  project_platformPath : string
}.

Record PlatformInfo : Type := {
  info_platformId : string;
  info_create : option Project
}.

Section Main.
Context `{Platform} `{NodePaths}.
Context {V : Type} (truthy_value : V → bool).

(** Calls made by the operations of [Main], in the order they are made. *)
Inductive MainEvent : Type :=
| main_info (message : string)
| main_error (message : string)
| main_test (options path : string)
| main_shell (command : string) (arguments : list string)
| project_create (packageId : jsstring) (args : gmap string V)
| project_update (version : jsstring) (args : gmap string V)
| project_build (configId : string)
| project_importWebP (version : string)
| main_convertWebP (path : string) (args : V)
| main_callback (errno : Z).

(** Reading [platformInfo.platformId] when [platformInfo] is [null]. *)
Definition TypeError : exn := OtherError "TypeError".

Definition Main_instantiatePlatform (loadDefault : option PlatformInfo)
    : list MainEvent * Result (option Project) :=
  match loadDefault with
  | Some platformInfo =>
      ([main_info ("Loading '" +:+ info_platformId platformInfo +:+
                   "' platform backend")],
       Ok (info_create platformInfo))
  | None =>
      (* the argument of [output.error] reads [platformInfo.platformId] *)
      ([], Throw TypeError)
  end.

(** The function given to [project.create], [project.update] and
    [project.build]. *)
Definition Main_operation_cb (errormsg : jsstring) : list MainEvent :=
  if truthy errormsg then
    [main_error (to_str errormsg); main_callback MAIN_EXIT_CODE_ERROR]
  else
    [main_callback MAIN_EXIT_CODE_OK].

(** [create], up to its return.  [template_there] is the answer of
    [ShellJS.test("-d", templatePath)]; [templatePath] is what Node makes of
    [Path.normalize(Path.join(__dirname, "..", "app-template"))]. *)
Definition Main_create (templatePath appPath : string) (template_there : bool)
    (loadDefault : option PlatformInfo)
    (packageId : jsstring) (extraArgs : option (string → option V))
    : Outcome * list MainEvent :=
  if negb template_there then
    (Returned,
     [main_test "-d" templatePath;
      main_error ("Could not find app template in " +:+ templatePath);
      main_callback MAIN_EXIT_CODE_ERROR])
  else
    let copied :=
      [main_test "-d" templatePath;
       main_info ("Copying app template from " +:+ templatePath);
       main_shell "cp" ["-r"; Path_join templatePath "*"; appPath]] in
    match Main_instantiatePlatform loadDefault with
    | (loaded, Throw e) => (ThrownToCaller e, copied ++ loaded)
    | (loaded, Ok None) =>
        (Returned, copied ++ loaded ++ [main_callback MAIN_EXIT_CODE_ERROR])
    | (loaded, Ok (Some project)) =>
        let createArgs :=
          match project_argSpec project with
          | Some argSpec =>
              match argSpec_create argSpec with
              | Some keys =>
                  Main_collectArgs truthy_value (project_platformId project)
                    extraArgs keys
              | None => ∅
              end
          | None => ∅
          end in
        (Returned, copied ++ loaded ++ [project_create packageId createArgs])
    end.

(** [update], up to its return. *)
Definition Main_update (loadDefault : option PlatformInfo)
    (version : jsstring) (extraArgs : option (string → option V))
    : Outcome * list MainEvent :=
  match Main_instantiatePlatform loadDefault with
  | (loaded, Throw e) => (ThrownToCaller e, loaded)
  | (loaded, Ok None) =>
      (Returned, loaded ++ [main_callback MAIN_EXIT_CODE_ERROR])
  | (loaded, Ok (Some project)) =>
      let updateArgs :=
        match project_argSpec project with
        | Some argSpec =>
            match argSpec_update argSpec with
            | Some keys =>
                Main_collectArgs truthy_value (project_platformId project)
                  extraArgs keys
            | None => ∅
            end
        | None => ∅
        end in
      (Returned, loaded ++ [project_update version updateArgs])
  end.

(** What [build] reads of its [args]: the positional arguments [args._] and
    [args["android-webp"]]. *)
Record BuildArgs : Type := {
  positional : list V;
  android_webp : option V
}.

(** [var configId = "debug"], and the block that follows it: with two
    positional arguments it takes the last one as [target] and, when that
    equals ["release"], assigns ["release"] to [target]; [configId] is not
    assigned again. *)
Definition Main_build_configId (is_release : V → bool) (release : V)
    (args : BuildArgs) : string :=
  let configId := "debug" in
  let target :=
    if decide (2 = length (positional args)) then
      let target := positional args !! (length (positional args) - 1) in
      match target with
      | Some t => if is_release t then Some release else target
      | None => target
      end
    else None in
  configId.

(** [_build]: the call of [project.build]. *)
Definition Main_build__build (is_release : V → bool) (release : V)
    (args : BuildArgs) : list MainEvent :=
  [project_build (Main_build_configId is_release release args)].

(** The function given to [project.importWebP].  [convertWebP] either
    returns or throws. *)
Definition Main_build_webp_cb (is_release : V → bool) (release : V)
    (args : BuildArgs) (wwwPath : string) (webp_args : V)
    (convert_throws : option exn) (webpPath : jsstring)
    : Outcome * list MainEvent :=
  if truthy webpPath then
    match convert_throws with
    | Some e => (UncaughtInCallback e, [main_convertWebP wwwPath webp_args])
    | None =>
        (Returned,
         [main_convertWebP wwwPath webp_args] ++
         Main_build__build is_release release args)
    end
  else (Returned, []).

(** [build], up to its return.  [www_there] and [www_link] are the answers
    of [ShellJS.test("-e", wwwPath)] and [ShellJS.test("-L", wwwPath)]. *)
Definition Main_build (is_release : V → bool) (release : V)
    (loadDefault : option PlatformInfo) (www_there www_link : bool)
    (args : BuildArgs) : Outcome * list MainEvent :=
  match Main_instantiatePlatform loadDefault with
  | (loaded, Throw e) => (ThrownToCaller e, loaded)
  | (loaded, Ok None) =>
      (Returned, loaded ++ [main_callback MAIN_EXIT_CODE_ERROR])
  | (loaded, Ok (Some project)) =>
      let appPath :=
        Path_join
          (Path_dirname (Path_dirname (project_platformPath project))) "app" in
      let wwwPath :=
        Path_join (Path_join (project_platformPath project) "assets") "www" in
      let webp :=
        match android_webp args with
        | Some webp_args => truthy_value webp_args
        | None => false
        end in
      if webp then
        (Returned,
         loaded ++ [main_test "-e" wwwPath] ++
         (if www_there then
            [main_test "-L" wwwPath] ++
            (if www_link then [main_shell "rm" ["-f"; wwwPath]]
             else [main_shell "rm" ["-r"; wwwPath]])
          else []) ++
         [main_shell "mkdir" ["-p"; wwwPath];
          main_shell "cp" ["-R"; appPath +:+ "/*"; wwwPath];
          project_importWebP "0.4.3"])
      else
        (Returned,
         loaded ++ [main_test "-e" wwwPath] ++
         (if www_there then
            [main_test "-L" wwwPath] ++
            (if www_link then []
             else [main_shell "rm" ["-r"; wwwPath];
                   main_shell "ln" ["-s"; appPath; wwwPath]])
          else []) ++
         Main_build__build is_release release args)
  end.

End Main.

(** ** Reading what [Main] and [downloadWebP] did *)

Definition is_main_callback {V : Type} (e : MainEvent (V := V)) : bool :=
  match e with main_callback _ => true | _ => false end.

Definition is_project_build {V : Type} (e : MainEvent (V := V)) : bool :=
  match e with project_build _ => true | _ => false end.

Definition is_main_error {V : Type} (e : MainEvent (V := V)) : bool :=
  match e with main_error _ => true | _ => false end.

(** What [allArgs] offers for a key of the spec: the value under the key
    without its dashes, when there is one and it is truthy. *)
Definition collectArgs_offered {V : Type} (truthy_value : V → bool)
    (object : string → option V) (key : string) : option V :=
  match object (substring_from (String.length "--") key) with
  | Some v => if truthy_value v then Some v else None
  | None => None
  end.

(** ** Paths to run [downloadWebP] and [Main] on *)

(** A path cut at its last slash, when it has one. *)
Fixpoint cut_at_last_slash (path : string) : option (string * string) :=
  match path with
  | EmptyString => None
  | String c rest =>
      match cut_at_last_slash rest with
      | Some (dir, base) => Some (String c dir, base)
      | None =>
          if decide (c = "/"%char) then Some (EmptyString, rest) else None
      end
  end.

Definition plain_dirname (path : string) : string :=
  match cut_at_last_slash path with
  | Some (dir, _) => dir
  | None => EmptyString
  end.

(** The name without the extension, when the name ends with it and is
    longer than it. *)
Definition strip_ext (name ext : string) : string :=
  let n := String.length name in
  let k := String.length ext in
  if decide (k < n)%nat then
    if String.eqb (String.substring (n - k) k name) ext then
      String.substring 0 (n - k) name
    else name
  else name.

Definition plain_basename (path ext : string) : string :=
  match cut_at_last_slash path with
  | Some (_, base) => strip_ext base ext
  | None => strip_ext path ext
  end.

#[global] Instance plain_paths : NodePaths :=
  {| Path_dirname := plain_dirname;
     Path_basename := plain_basename;
     __dirname := "/usr/lib/node_modules/crosswalk-app-tools/android/lib" |}.

(** ** Command-line values to run [Main] on *)

(** A value as the argument parser makes them: a flag or a string. *)
Inductive argv : Type :=
| ArgFlag (b : bool)
| ArgString (s : string).

Definition argv_truthy (v : argv) : bool :=
  match v with
  | ArgFlag b => b
  | ArgString s => bool_decide (s ≠ EmptyString)
  end.

Definition argv_is_release (v : argv) : bool :=
  match v with
  | ArgString s => bool_decide (s = "release")
  | ArgFlag _ => false
  end.

(** [--android-crosswalk=beta --android-verbose=false] *)
Definition beta_args (name : string) : option argv :=
  if decide (name = "android-crosswalk") then Some (ArgString "beta")
  else if decide (name = "android-verbose") then Some (ArgFlag false)
  else None.

Definition android_project : Project :=
  {| project_platformId := "android";
     project_argSpec :=
       Some {| argSpec_create := Some ["--android-crosswalk"; "--android-verbose"];
               argSpec_update := None |};
     project_platformPath := "app/platforms/android" |}.

Definition android_info : PlatformInfo :=
  {| info_platformId := "android"; info_create := Some android_project |}.

Definition linux_run : WebPRun :=
  {| OS_platform := "linux"; OS_arch := "x64";
     file_there := true; extract_there := false; extraction := None |}.

Definition darwin_run : WebPRun :=
  {| OS_platform := "darwin"; OS_arch := "x64";
     file_there := true; extract_there := true;
     extraction := Some (Some "Error: not an archive") |}.

(** * Properties *)

(** ** The constructor and the channels *)

Lemma indexOf_from_absent (a : list string) (v : jsstring) (i : Z) :
  (0 ≤ i)%Z →
  indexOf_from a v i = (-1)%Z ↔ ∀ y, y ∈ a → Some y ≠ v.
Proof.
  revert i. induction a as [|x a IH]; intros i Hi; simpl.
  - split; [intros _ y Hy; by apply elem_of_nil in Hy | done].
  - case_decide as Hx.
    + split; [lia |]. intros Hall. exfalso. apply (Hall x); [left | done].
    + rewrite IH by lia. split.
      * intros Hall y Hy. apply elem_of_cons in Hy as [-> | Hy]; auto.
      * intros Hall y Hy. apply Hall. by right.
Qed.

Lemma indexOf_absent (a : list string) (channel : string) :
  indexOf a (Some channel) = (-1)%Z ↔ channel ∉ a.
Proof.
  unfold indexOf. rewrite indexOf_from_absent by lia. split.
  - intros Hall Hin. by apply (Hall channel).
  - intros Hnot y Hy [= ->]. by apply Hnot.
Qed.

(** A given string is none of the three channels. *)
Ltac not_a_channel :=
  rewrite !elem_of_cons, elem_of_nil; intros [?|[?|[?|[]]]]; discriminate.

Lemma deref_module_load :
  deref module_load CHANNELS = ["stable"; "beta"; "canary"].
Proof. reflexivity. Qed.

Lemma truthy_Some (s : string) : truthy (Some s) = true ↔ s ≠ EmptyString.
Proof. unfold truthy. by rewrite bool_decide_eq_true. Qed.

Lemma truthy_true (v : jsstring) :
  truthy v = true → ∃ s, v = Some s ∧ s ≠ EmptyString.
Proof.
  destruct v as [s|]; [| done]. intros Ht%truthy_Some. by exists s.
Qed.

(** C1, as the code has it: a channel that is a non-empty string outside
    stable, beta and canary makes the constructor throw
    [InvalidChannelError]; a channel of the three is kept; an empty or absent
    channel is not checked at all, the constructor returns and the channel of
    the new object stays unset. *)
Theorem constructor_validates_channel (application : Application) :
  (∀ channel : string,
     channel ≠ EmptyString →
     channel ∉ ["stable"; "beta"; "canary"] →
     AndroidDependencies module_load application (Some channel) =
       Throw (InvalidChannelError ("Unknown channel " +:+ channel))) ∧
  (∀ channel : string,
     channel ∈ ["stable"; "beta"; "canary"] →
     AndroidDependencies module_load application (Some channel) =
       Ok {| _application := application; _channel := Some channel |}) ∧
  (∀ channel : jsstring,
     truthy channel = false →
     AndroidDependencies module_load application channel =
       Ok {| _application := application; _channel := None |}).
Proof.
  split; [| split].
  - intros channel Hne Hnot. unfold AndroidDependencies.
    apply truthy_Some in Hne. rewrite Hne, deref_module_load.
    apply indexOf_absent in Hnot. by rewrite Hnot.
  - intros channel Hin. unfold AndroidDependencies.
    assert (channel ≠ EmptyString) as Hne.
    { intros ->. revert Hin. not_a_channel. }
    apply truthy_Some in Hne. rewrite Hne, deref_module_load.
    destruct (Z.eqb_spec (indexOf ["stable"; "beta"; "canary"] (Some channel)) (-1))
      as [Habs | _]; [| done].
    apply indexOf_absent in Habs. done.
  - intros channel Hfalsy. unfold AndroidDependencies. by rewrite Hfalsy.
Qed.

Lemma constructor_validates_channel_witness :
  AndroidDependencies module_load lines_app (Some "nightly") =
    Throw (InvalidChannelError "Unknown channel nightly").
Proof.
  apply (proj1 (constructor_validates_channel lines_app) "nightly").
  - discriminate.
  - not_a_channel.
Defined.

(** C1 as stated does not hold: the empty string is a channel outside the
    three, and the constructor returns for it. *)
Lemma constructor_accepts_empty_channel :
  ¬ (∀ channel : string,
       channel ∉ ["stable"; "beta"; "canary"] →
       ∃ message,
         AndroidDependencies module_load lines_app (Some channel) =
           Throw (InvalidChannelError message)).
Proof.
  intros Hall. destruct (Hall EmptyString) as [message Hthrow]; [not_a_channel |].
  vm_compute in Hthrow. discriminate.
Qed.

Lemma assign_CHANNELS_noop (configs : list value) (σ : Store) :
  assign_CHANNELS configs σ = σ.
Proof.
  unfold assign_CHANNELS. revert σ.
  induction configs as [|config configs IH]; intros σ; simpl; [done |].
  by rewrite IH.
Qed.

(** Whatever is assigned to [AndroidDependencies.CHANNELS], and however
    often, the getter returns the array holding stable, beta and canary. *)
Lemma CHANNELS_not_assignable (configs : list value) :
  let σ := assign_CHANNELS configs module_load in
  deref σ (CHANNELS_get σ) = ["stable"; "beta"; "canary"].
Proof. simpl. by rewrite assign_CHANNELS_noop. Qed.

(** C10 fails on the code.  The getter hands out the module's own array, not
    a copy: a caller that pushes a name onto the array it got (there is no
    assignment to the property) changes what the getter returns from then
    on, and the constructor accepts the channel it refused before. *)
Theorem CHANNELS_array_is_shared (application : Application) :
  let σ := Array_push (CHANNELS_get module_load) "nightly" module_load in
  deref σ (CHANNELS_get σ) = ["stable"; "beta"; "canary"; "nightly"] ∧
  AndroidDependencies module_load application (Some "nightly") =
    Throw (InvalidChannelError "Unknown channel nightly") ∧
  AndroidDependencies σ application (Some "nightly") =
    Ok {| _application := application; _channel := Some "nightly" |}.
Proof. repeat split. Qed.

(** ** Running the operations *)

(** Run the monadic steps whose outcome is known. *)
Ltac run_steps :=
  cbv beta iota zeta delta [bind emit ret update_files throw logged files trace].

Lemma logged_nil (w : World) : logged w [] = w.
Proof. destruct w as [fs tr]. unfold logged. simpl. by rewrite app_nil_r. Qed.

Lemma logged_logged (w : World) (evs evs' : list Event) :
  logged (logged w evs) evs' = logged w (evs ++ evs').
Proof. unfold logged. simpl. by rewrite app_assoc. Qed.

Lemma new_events_logged (w : World) (evs : list Event) :
  new_events w (logged w evs) = evs.
Proof. unfold new_events, logged. simpl. by rewrite drop_app_length. Qed.

Lemma emit_logged (e : Event) (w : World) : emit e w = (Ok tt, logged w [e]).
Proof. reflexivity. Qed.

Lemma ShellJS_test_f_logged (path : string) (w : World) :
  ShellJS_test_f path w =
    (Ok (bool_decide (path ∈ files w)), logged w [ShellJS_test path]).
Proof. reflexivity. Qed.

Lemma select_app (p : Event → bool) (evs evs' : list Event) :
  select p (evs ++ evs') = select p evs ++ select p evs'.
Proof. apply List.filter_app. Qed.

Lemma select_none (p : Event → bool) (evs : list Event) :
  (∀ e, e ∈ evs → p e = false) → select p evs = [].
Proof.
  induction evs as [|e evs IH]; intros Hall; simpl; [done |].
  rewrite (Hall e) by left. apply IH. intros e' He'. apply Hall. by right.
Qed.

Lemma new_events_extended (w : World) (fs : gset string) (evs : list Event) :
  new_events w {| files := fs; trace := trace w ++ evs |} = evs.
Proof. unfold new_events. simpl. by rewrite drop_app_length. Qed.

Lemma select_updates (p : Event → bool) (values : list Q) :
  (∀ progress, p (indicator_update progress) = false) →
  select p (map indicator_update values) = [].
Proof.
  intros Hp. apply select_none. intros e (progress & -> & _)%list_elem_of_fmap.
  apply Hp.
Qed.

Lemma select_probes `{Platform} (p : Event → bool) fileName dirs :
  (∀ path, p (ShellJS_test path) = false) →
  select p (probes fileName dirs) = [].
Proof.
  intros Hp. apply select_none. intros e (dir & -> & _)%list_elem_of_fmap.
  apply Hp.
Qed.

Lemma select_tests `{Platform} fileName dirs :
  select is_test (probes fileName dirs) = probes fileName dirs.
Proof.
  induction dirs as [|dir dirs IH]; simpl; [done |]. f_equal. apply IH.
Qed.

(** Pick the events of one kind out of a trace that is known. *)
Ltac read_trace :=
  rewrite ?new_events_logged, ?new_events_extended;
  rewrite ?select_app;
  rewrite ?select_tests;
  rewrite ?select_probes by done;
  rewrite ?select_updates by done;
  cbv beta iota delta [select List.filter is_download_callback
    is_fetchVersions_callback is_network is_get is_finish is_test];
  rewrite ?app_nil_l, ?app_nil_r.

(** C5: [findLocally] looks for [crosswalk-<version>.zip] in the working
    directory and, only when it is not there, in the parent directory; it
    returns the first of the two that exists and [null] when neither does.
    It always returns (nothing is thrown) and leaves the files as they were. *)
Theorem findLocally_checks_cwd_then_parent
    (this : AndroidDependencies_t) (version : string) (w : World) :
  let filename := "crosswalk-" +:+ version +:+ ".zip" in
  let parent := "../" +:+ filename in
  (filename ∈ files w →
     findLocally this version w =
       (Ok (Some filename), logged w [ShellJS_test filename])) ∧
  (filename ∉ files w → parent ∈ files w →
     findLocally this version w =
       (Ok (Some parent), logged w [ShellJS_test filename; ShellJS_test parent])) ∧
  (filename ∉ files w → parent ∉ files w →
     findLocally this version w =
       (Ok None, logged w [ShellJS_test filename; ShellJS_test parent])) ∧
  (∃ found w',
     findLocally this version w = (Ok found, w') ∧ files w' = files w).
Proof.
  intros filename parent.
  assert (∀ b b' : bool,
    bool_decide (filename ∈ files w) = b →
    bool_decide (parent ∈ files w) = b' →
    findLocally this version w =
      (Ok (if b then Some filename else if b' then Some parent else None),
       logged w (if b then [ShellJS_test filename]
                 else [ShellJS_test filename; ShellJS_test parent]))) as Hrun.
  { subst filename parent. intros b b' Hb Hb'. unfold findLocally, bind.
    cbv zeta. rewrite ShellJS_test_f_logged, Hb. destruct b; [done |].
    rewrite ShellJS_test_f_logged. change (files (logged w _)) with (files w).
    rewrite Hb', logged_logged. by destruct b'. }
  repeat split.
  - intros Hin. apply (Hrun true (bool_decide (parent ∈ files w))); [| done].
    by apply bool_decide_eq_true_2.
  - intros Hout Hin. apply (Hrun false true).
    + by apply bool_decide_eq_false_2.
    + by apply bool_decide_eq_true_2.
  - intros Hout Hout'. apply (Hrun false false); by apply bool_decide_eq_false_2.
  - eexists _, _. split; [by apply Hrun |]. reflexivity.
Qed.

Lemma findLocally_checks_cwd_then_parent_witness :
  findLocally stable_resolver "14.44.360.4"
    {| files := {["../crosswalk-14.44.360.4.zip"]}; trace := [] |} =
  (Ok (Some "../crosswalk-14.44.360.4.zip"),
   {| files := {["../crosswalk-14.44.360.4.zip"]};
      trace := [ShellJS_test "crosswalk-14.44.360.4.zip";
                ShellJS_test "../crosswalk-14.44.360.4.zip"] |}).
Proof.
  refine (proj1 (proj2 (findLocally_checks_cwd_then_parent stable_resolver
    "14.44.360.4" {| files := {["../crosswalk-14.44.360.4.zip"]}; trace := [] |}))
    _ _).
  - vm_compute. intros Hin. discriminate Hin.
  - vm_compute. reflexivity.
Defined.

Section Resolver_runs.
Context `{Platform}.

Implicit Types (env : Env) (this : AndroidDependencies_t) (w : World).
Implicit Types (version defaultPath dir : string) (dirs : list string).

Lemma download_filename_nonempty version :
  download_filename version ≠ EmptyString.
Proof. discriminate. Qed.

Lemma handler_findLocally_miss (handler : DownloadHandler_t) dirs w :
  (∀ dir, dir ∈ dirs → ¬ present w (_fileName handler) dir) →
  DownloadHandler_findLocally handler dirs w =
    (Ok None, logged w (probes (_fileName handler) dirs)).
Proof.
  revert w. induction dirs as [|dir dirs IH]; intros w Hmiss; simpl.
  - unfold ret. by rewrite logged_nil.
  - unfold bind. rewrite ShellJS_test_f_logged.
    rewrite bool_decide_eq_false_2 by (apply Hmiss; left).
    rewrite IH.
    + by rewrite logged_logged.
    + intros dir' Hin. apply Hmiss. by right.
Qed.

Lemma handler_findLocally_hit (handler : DownloadHandler_t) before dir after w :
  (∀ dir', dir' ∈ before → ¬ present w (_fileName handler) dir') →
  present w (_fileName handler) dir →
  DownloadHandler_findLocally handler (before ++ dir :: after) w =
    (Ok (Some (Path_join dir (_fileName handler))),
     logged w (probes (_fileName handler) (before ++ [dir]))).
Proof.
  revert w. induction before as [|dir' before IH]; intros w Hmiss Hhit; simpl.
  - unfold bind. rewrite ShellJS_test_f_logged.
    by rewrite bool_decide_eq_true_2.
  - unfold bind. rewrite ShellJS_test_f_logged.
    rewrite bool_decide_eq_false_2 by (apply Hmiss; left).
    rewrite IH.
    + by rewrite logged_logged.
    + intros dir'' Hin. apply Hmiss. by right.
    + done.
Qed.

(** Among directories of which one has the file, there is a first one. *)
Lemma first_present w fileName dirs :
  (∃ dir, dir ∈ dirs ∧ present w fileName dir) →
  ∃ before dir after,
    dirs = before ++ dir :: after ∧
    (∀ dir', dir' ∈ before → ¬ present w fileName dir') ∧
    present w fileName dir.
Proof.
  induction dirs as [|d dirs IH]; intros (dir & Hin & Hhit).
  - by apply elem_of_nil in Hin.
  - destruct (decide (present w fileName d)) as [Hd | Hd].
    + exists [], d, dirs. split; [done |]. split; [| done].
      intros dir' Hnil. by apply elem_of_nil in Hnil.
    + apply elem_of_cons in Hin as [-> | Hin]; [done |].
      destruct IH as (before & dir0 & after & -> & Hmiss & Hhit0); [by eauto |].
      exists (d :: before), dir0, after. split; [done |]. split; [| done].
      intros dir' [-> | Hin']%elem_of_cons; auto.
Qed.

Lemma report_progress_logged (values : list Q) w :
  report_progress (λ progress, emit (indicator_update progress)) values w =
    (Ok tt, logged w (map indicator_update values)).
Proof.
  revert w. induction values as [|progress values IH]; intros w; simpl.
  - unfold ret. by rewrite logged_nil.
  - unfold bind. rewrite emit_logged, IH. by rewrite logged_logged.
Qed.

Lemma truthy_found (path : string) :
  path ≠ EmptyString → truthy (Some path) = true.
Proof. intros. by apply truthy_Some. Qed.

(** *** [download]: the four ways a call goes *)

Section download_runs.
Variables (env : Env) (this : AndroidDependencies_t).
Variables (version defaultPath : string) (w : World).

Let filename := download_filename version.
Let handler := DownloadHandler defaultPath filename.
Let localDirs := download_localDirs env defaultPath.
Let final := Path_join defaultPath filename.
Let temp := temp_name final.
Let label := "Downloading '" +:+ to_str (_channel this) +:+ "' " +:+ version.

(** The calls made from the search to [downloader.get]. *)
Let started : list Event :=
  probes filename localDirs ++
  [output_createFiniteProgress label; handler_createStream temp;
   Downloader_new (download_url this version); Downloader_get].

Let transferring : list Event :=
  started ++ map indicator_update (progress_values (network env)) ++
  [indicator_done EmptyString].

Lemma download_hit before dir after :
  localDirs = before ++ dir :: after →
  (∀ dir', dir' ∈ before → ¬ present w filename dir') →
  present w filename dir →
  download env this version defaultPath w =
    (Returned,
     logged w (probes filename (before ++ [dir]) ++
               [output_info ("Using cached " +:+ Path_join dir filename);
                download_callback (Some (Path_join dir filename)) None])).
Proof.
  intros Hdirs Hmiss Hhit. unfold download, run, download_body.
  fold filename. fold localDirs. rewrite Hdirs. unfold bind at 1.
  rewrite (handler_findLocally_hit (DownloadHandler defaultPath filename)) by done.
  cbn [_fileName DownloadHandler].
  rewrite truthy_found by (apply Path_join_nonempty, download_filename_nonempty).
  run_steps. by rewrite <- !app_assoc.
Qed.

Lemma download_unwritable :
  (∀ dir, dir ∈ localDirs → ¬ present w filename dir) →
  can_create env temp = false →
  download env this version defaultPath w =
    (ThrownToCaller (FileCreationFailed temp),
     logged w (probes filename localDirs ++ [output_createFiniteProgress label])).
Proof.
  intros Hmiss Hcreate. unfold download, run, download_body.
  fold filename. fold localDirs. unfold bind at 1.
  rewrite (handler_findLocally_miss (DownloadHandler defaultPath filename)) by done.
  cbn [_fileName DownloadHandler]. change (truthy None) with false.
  unfold DownloadHandler_createStream, final_path.
  cbn [_dirPath _fileName DownloadHandler]. fold final. fold temp.
  rewrite Hcreate. run_steps. by rewrite <- !app_assoc.
Qed.

Lemma download_failed :
  (∀ dir, dir ∈ localDirs → ¬ present w filename dir) →
  can_create env temp = true →
  truthy (completion (network env)) = true →
  download env this version defaultPath w =
    (Returned,
     {| files := files w ∪ {[temp]};
        trace := trace w ++ transferring ++
                 [download_callback None (completion (network env))] |}).
Proof.
  intros Hmiss Hcreate Herr. unfold download, run, download_body.
  fold filename. fold localDirs. unfold bind at 1.
  rewrite (handler_findLocally_miss (DownloadHandler defaultPath filename)) by done.
  cbn [_fileName DownloadHandler]. change (truthy None) with false.
  unfold DownloadHandler_createStream, final_path.
  cbn [_dirPath _fileName DownloadHandler]. fold final. fold temp.
  rewrite Hcreate. run_steps.
  unfold Downloader_transfer, bind. rewrite report_progress_logged.
  unfold download_get_cb. rewrite Herr. run_steps.
  unfold transferring, started. by rewrite <- !app_assoc.
Qed.

Lemma download_finished :
  (∀ dir, dir ∈ localDirs → ¬ present w filename dir) →
  can_create env temp = true →
  truthy (completion (network env)) = false →
  ∃ fs,
    download env this version defaultPath w =
      (Returned,
       {| files := fs;
          trace := trace w ++ transferring ++
                   [handler_finish (CROSSWALK_APP_TOOLS_CACHE_DIR env);
                    download_callback (Some final) None] |}) ∧
    final ∈ fs ∧
    (truthy (CROSSWALK_APP_TOOLS_CACHE_DIR env) = true →
     Path_join (to_str (CROSSWALK_APP_TOOLS_CACHE_DIR env)) filename ∈ fs).
Proof.
  intros Hmiss Hcreate Herr. unfold download, run, download_body.
  fold filename. fold localDirs. unfold bind at 1.
  rewrite (handler_findLocally_miss (DownloadHandler defaultPath filename)) by done.
  cbn [_fileName DownloadHandler]. change (truthy None) with false.
  unfold DownloadHandler_createStream, final_path.
  cbn [_dirPath _fileName DownloadHandler]. fold final. fold temp.
  rewrite Hcreate. run_steps.
  unfold Downloader_transfer, bind. rewrite report_progress_logged.
  unfold download_get_cb. rewrite Herr.
  unfold DownloadHandler_finish, final_path.
  cbn [_dirPath _fileName DownloadHandler]. fold final. fold temp.
  destruct (truthy (CROSSWALK_APP_TOOLS_CACHE_DIR env)) eqn:Hcache; run_steps.
  - eexists. split; [| split].
    + unfold transferring, started. rewrite <- !app_assoc. reflexivity.
    + set_solver.
    + intros _. set_solver.
  - eexists. split; [| split].
    + unfold transferring, started. rewrite <- !app_assoc. reflexivity.
    + set_solver.
    + done.
Qed.

End download_runs.

(** *** [fetchVersions]: the three ways a call goes *)

Section fetchVersions_runs.
Variables (env : Env) (this : AndroidDependencies_t) (w : World).

Let label := "Fetching '" +:+ to_str (_channel this) +:+ "' versions index".

Let transferring : list Event :=
  [Downloader_new (fetchVersions_url this); output_createFiniteProgress label;
   Downloader_get] ++
  map indicator_update (progress_values (network env)) ++
  [indicator_done EmptyString].

Lemma fetchVersions_started :
  fetchVersions env this w =
    match fetchVersions_get_cb this (received env) (completion (network env))
            (logged w ([Downloader_new (fetchVersions_url this);
                        output_createFiniteProgress label; Downloader_get] ++
                       map indicator_update (progress_values (network env))))
    with
    | (Ok _, w') => (Returned, w')
    | (Throw e, w') => (UncaughtInCallback e, w')
    end.
Proof.
  unfold fetchVersions, run, fetchVersions_body. run_steps.
  unfold Downloader_transfer, bind. rewrite report_progress_logged.
  run_steps. by rewrite <- !app_assoc.
Qed.

Lemma fetchVersions_failed :
  truthy (completion (network env)) = true →
  fetchVersions env this w =
    (Returned,
     logged w (transferring ++
               [fetchVersions_callback None (completion (network env))])).
Proof.
  intros Herr. rewrite fetchVersions_started. unfold fetchVersions_get_cb.
  rewrite Herr. run_steps. unfold transferring. by rewrite <- !app_assoc.
Qed.

Lemma fetchVersions_parsed (versions : list string) :
  truthy (completion (network env)) = false →
  IndexParser_parse (_application this) (received env) = Ok versions →
  fetchVersions env this w =
    (Returned,
     logged w (transferring ++ [fetchVersions_callback (Some versions) None])).
Proof.
  intros Herr Hparse. rewrite fetchVersions_started. unfold fetchVersions_get_cb.
  rewrite Herr, Hparse. run_steps. unfold transferring. by rewrite <- !app_assoc.
Qed.

Lemma fetchVersions_parser_throws (e : exn) :
  truthy (completion (network env)) = false →
  IndexParser_parse (_application this) (received env) = Throw e →
  fetchVersions env this w = (UncaughtInCallback e, logged w transferring).
Proof.
  intros Herr Hparse. rewrite fetchVersions_started. unfold fetchVersions_get_cb.
  rewrite Herr, Hparse. run_steps. unfold transferring. by rewrite <- !app_assoc.
Qed.

End fetchVersions_runs.

(** ** What [download] and [fetchVersions] promise *)

Lemma defaultPath_searched env defaultPath :
  defaultPath ∈ download_localDirs env defaultPath.
Proof.
  unfold download_localDirs. destruct (truthy _); simpl; by left.
Qed.

Lemma searched_found_or_not w fileName dirs :
  (∃ dir, dir ∈ dirs ∧ present w fileName dir) ∨
  (∀ dir, dir ∈ dirs → ¬ present w fileName dir).
Proof.
  destruct (decide (Exists (present w fileName) dirs)) as [Hex | Hnone].
  - left. by apply Exists_exists in Hex.
  - right. intros dir Hin Hhit. apply Hnone, Exists_exists. eauto.
Qed.

(** C2: when a file named [crosswalk-<version>.zip] exists in one of the
    directories [download] searches, the call returns, its callback gets the
    path of the file in the first such directory and no error message, no
    [Downloader] is constructed and no [get] is called, and the files are as
    they were. *)
Theorem download_uses_local_copy env this version defaultPath w :
  (∃ dir, dir ∈ download_localDirs env defaultPath ∧
          present w (download_filename version) dir) →
  ∃ before dir after w',
    download_localDirs env defaultPath = before ++ dir :: after ∧
    (∀ dir', dir' ∈ before → ¬ present w (download_filename version) dir') ∧
    present w (download_filename version) dir ∧
    download env this version defaultPath w = (Returned, w') ∧
    select is_download_callback (new_events w w') =
      [download_callback (Some (Path_join dir (download_filename version))) None] ∧
    select is_network (new_events w w') = [] ∧
    files w' = files w.
Proof.
  intros Hfound.
  apply first_present in Hfound as (before & dir & after & Hdirs & Hmiss & Hhit).
  exists before, dir, after. eexists. split; [done |]. split; [done |].
  split; [done |]. split; [by eapply download_hit |].
  split; [| split]; [by read_trace | by read_trace | done].
Qed.

(** C3: when nothing is found locally, the stream is created and the
    transfer then reports an error, [download] does not call
    [handler.finish]; no file is at the final path afterwards, and the
    callback gets [null] for the path and the error message. *)
Theorem download_failure_leaves_no_file env this version defaultPath w :
  (∀ dir, dir ∈ download_localDirs env defaultPath →
          ¬ present w (download_filename version) dir) →
  can_create env
    (temp_name (Path_join defaultPath (download_filename version))) = true →
  truthy (completion (network env)) = true →
  ∃ w',
    download env this version defaultPath w = (Returned, w') ∧
    select is_finish (new_events w w') = [] ∧
    (Path_join defaultPath (download_filename version) ∉ files w') ∧
    select is_download_callback (new_events w w') =
      [download_callback None (completion (network env))].
Proof.
  intros Hmiss Hcreate Herr. eexists. split; [by apply download_failed |].
  split; [by read_trace |]. split; [| by read_trace].
  simpl. intros [Hold | Htemp%elem_of_singleton]%elem_of_union.
  - by apply (Hmiss defaultPath (defaultPath_searched env defaultPath)).
  - symmetry in Htemp. by apply temp_name_fresh in Htemp.
Qed.

(** C6: [download] searches the destination directory, then the current
    directory (the empty directory name), then the directory named by
    [CROSSWALK_APP_TOOLS_CACHE_DIR], the last only when the variable is set
    (to a non-empty value); the directories are probed in that order, each
    probe asks only whether the file exists, and the first directory that
    has the file decides the path the callback gets. *)
Theorem download_search_order env this version defaultPath w :
  let localDirs := download_localDirs env defaultPath in
  let filename := download_filename version in
  (CROSSWALK_APP_TOOLS_CACHE_DIR env = None →
     localDirs = [defaultPath; EmptyString]) ∧
  (CROSSWALK_APP_TOOLS_CACHE_DIR env = Some EmptyString →
     localDirs = [defaultPath; EmptyString]) ∧
  (∀ cache, CROSSWALK_APP_TOOLS_CACHE_DIR env = Some cache →
     cache ≠ EmptyString →
     localDirs = [defaultPath; EmptyString; cache]) ∧
  (∀ before dir after,
     localDirs = before ++ dir :: after →
     (∀ dir', dir' ∈ before → ¬ present w filename dir') →
     present w filename dir →
     ∃ w',
       download env this version defaultPath w = (Returned, w') ∧
       select is_test (new_events w w') = probes filename (before ++ [dir]) ∧
       select is_download_callback (new_events w w') =
         [download_callback (Some (Path_join dir filename)) None]) ∧
  ((∀ dir, dir ∈ localDirs → ¬ present w filename dir) →
     ∃ outcome w',
       download env this version defaultPath w = (outcome, w') ∧
       select is_test (new_events w w') = probes filename localDirs).
Proof.
  intros localDirs filename. subst localDirs filename.
  split; [| split; [| split; [| split]]].
  - intros Henv. unfold download_localDirs. by rewrite Henv.
  - intros Henv. unfold download_localDirs. by rewrite Henv.
  - intros cache Henv Hcache. unfold download_localDirs. rewrite Henv.
    by rewrite truthy_found.
  - intros before dir after Hdirs Hmiss Hhit. eexists.
    split; [by eapply download_hit |]. split; by read_trace.
  - intros Hmiss.
    destruct (can_create env
      (temp_name (Path_join defaultPath (download_filename version))))
      eqn:Hcreate.
    + destruct (truthy (completion (network env))) eqn:Herr.
      * eexists _, _. split; [by apply download_failed |]. by read_trace.
      * destruct (download_finished env this version defaultPath w
          Hmiss Hcreate Herr) as (fs & Hrun & _).
        eexists _, _. split; [exact Hrun |]. by read_trace.
    + eexists _, _. split; [by apply download_unwritable |]. by read_trace.
Qed.

(** C7: when nothing is found locally and the stream is created, the
    [Downloader] is constructed, once, with the URL made of [BASE_URL], the
    channel, the version and the file name [crosswalk-<version>.zip]. *)
Theorem download_requests_canonical_url
    env this (channel : string) version defaultPath w :
  _channel this = Some channel →
  (∀ dir, dir ∈ download_localDirs env defaultPath →
          ¬ present w (download_filename version) dir) →
  can_create env
    (temp_name (Path_join defaultPath (download_filename version))) = true →
  ∃ w',
    download env this version defaultPath w = (Returned, w') ∧
    select is_network (new_events w w') =
      [Downloader_new
         (BASE_URL +:+ channel +:+ "/" +:+ version +:+ "/" +:+
          "crosswalk-" +:+ version +:+ ".zip");
       Downloader_get].
Proof.
  intros Hchannel Hmiss Hcreate.
  assert (download_url this version =
          BASE_URL +:+ channel +:+ "/" +:+ version +:+ "/" +:+
          "crosswalk-" +:+ version +:+ ".zip") as Hurl.
  { unfold download_url, download_filename. by rewrite Hchannel. }
  destruct (truthy (completion (network env))) eqn:Herr.
  - eexists. split; [by apply download_failed |]. read_trace. by rewrite Hurl.
  - destruct (download_finished env this version defaultPath w
      Hmiss Hcreate Herr) as (fs & Hrun & _).
    eexists. split; [exact Hrun |]. read_trace. by rewrite Hurl.
Qed.

(** C8: when the transfer succeeds and the parser returns a list of versions
    for what was received, [fetchVersions] calls its callback once, with
    that very list and no error message. *)
Theorem fetchVersions_delivers_parsed_versions
    env this (versions : list string) w :
  truthy (completion (network env)) = false →
  IndexParser_parse (_application this) (received env) = Ok versions →
  ∃ w',
    fetchVersions env this w = (Returned, w') ∧
    select is_fetchVersions_callback (new_events w w') =
      [fetchVersions_callback (Some versions) None] ∧
    files w' = files w.
Proof.
  intros Herr Hparse. eexists. split; [by apply fetchVersions_parsed |].
  split; [by read_trace | done].
Qed.

(** C9, as the code has it: a call to [download] either throws
    [FileCreationFailed] to its caller, and then never calls the callback, or
    returns and calls the callback exactly once; the callback gets either a
    path and no error message (a local copy, or the finished download) or
    [null] for the path and an error message (the transfer failed). *)
Theorem download_calls_back_once env this version defaultPath w :
  ∃ outcome w',
    download env this version defaultPath w = (outcome, w') ∧
    ((∃ message,
        outcome = ThrownToCaller (FileCreationFailed message) ∧
        select is_download_callback (new_events w w') = []) ∨
     (outcome = Returned ∧
      ∃ path errormsg,
        select is_download_callback (new_events w w') =
          [download_callback path errormsg] ∧
        ((∃ p, path = Some p ∧ p ≠ EmptyString ∧ errormsg = None) ∨
         (path = None ∧ ∃ m, errormsg = Some m ∧ m ≠ EmptyString)))).
Proof.
  destruct (searched_found_or_not w (download_filename version)
              (download_localDirs env defaultPath)) as [Hfound | Hmiss].
  - apply first_present in Hfound
      as (before & dir & after & Hdirs & Hmiss & Hhit).
    eexists _, _. split; [by eapply download_hit |]. right. split; [done |].
    eexists _, _. split; [by read_trace |]. left. eexists. split; [done |].
    split; [| done]. apply Path_join_nonempty, download_filename_nonempty.
  - destruct (can_create env
      (temp_name (Path_join defaultPath (download_filename version))))
      eqn:Hcreate.
    + destruct (truthy (completion (network env))) eqn:Herr.
      * eexists _, _. split; [by apply download_failed |]. right.
        split; [done |]. eexists _, _. split; [by read_trace |]. right.
        split; [done |]. apply truthy_true in Herr as (m & -> & Hm). eauto.
      * destruct (download_finished env this version defaultPath w
          Hmiss Hcreate Herr) as (fs & Hrun & _).
        eexists _, _. split; [exact Hrun |]. right. split; [done |].
        eexists _, _. split; [by read_trace |]. left. eexists.
        split; [done |]. split; [| done].
        apply Path_join_nonempty, download_filename_nonempty.
    + eexists _, _. split; [by apply download_unwritable |]. left.
      eexists. split; [done |]. by read_trace.
Qed.

(** C4, as the code has it.  An error the transfer reports reaches the
    caller as the error message of the callback, with [null] as the result,
    in [fetchVersions] and in [download], after one [get] and no more.  A
    file that cannot be created does not: [download] throws
    [FileCreationFailed] to its caller before any request is made, and the
    callback is not called.  After a transfer without error [fetchVersions]
    never passes an error message: the callback gets what the parser
    returns, and what the parser throws leaves the completion handler
    uncaught. *)
Theorem errors_and_the_callback env this version defaultPath w :
  (truthy (completion (network env)) = true →
     ∃ w',
       fetchVersions env this w = (Returned, w') ∧
       select is_fetchVersions_callback (new_events w w') =
         [fetchVersions_callback None (completion (network env))] ∧
       select is_get (new_events w w') = [Downloader_get]) ∧
  (truthy (completion (network env)) = true →
   (∀ dir, dir ∈ download_localDirs env defaultPath →
           ¬ present w (download_filename version) dir) →
   can_create env
     (temp_name (Path_join defaultPath (download_filename version))) = true →
     ∃ w',
       download env this version defaultPath w = (Returned, w') ∧
       select is_download_callback (new_events w w') =
         [download_callback None (completion (network env))] ∧
       select is_get (new_events w w') = [Downloader_get]) ∧
  ((∀ dir, dir ∈ download_localDirs env defaultPath →
           ¬ present w (download_filename version) dir) →
   can_create env
     (temp_name (Path_join defaultPath (download_filename version))) = false →
     ∃ message w',
       download env this version defaultPath w =
         (ThrownToCaller (FileCreationFailed message), w') ∧
       select is_download_callback (new_events w w') = [] ∧
       select is_network (new_events w w') = []) ∧
  (truthy (completion (network env)) = false →
     ∃ outcome w',
       fetchVersions env this w = (outcome, w') ∧
       select is_get (new_events w w') = [Downloader_get] ∧
       match IndexParser_parse (_application this) (received env) with
       | Ok versions =>
           outcome = Returned ∧
           select is_fetchVersions_callback (new_events w w') =
             [fetchVersions_callback (Some versions) None]
       | Throw e =>
           outcome = UncaughtInCallback e ∧
           select is_fetchVersions_callback (new_events w w') = []
       end).
Proof.
  split; [| split; [| split]].
  - intros Herr. eexists. split; [by apply fetchVersions_failed |].
    split; by read_trace.
  - intros Herr Hmiss Hcreate. eexists. split; [by apply download_failed |].
    split; by read_trace.
  - intros Hmiss Hcreate. eexists _, _.
    split; [by apply download_unwritable |]. split; by read_trace.
  - intros Herr.
    destruct (IndexParser_parse (_application this) (received env))
      as [versions | e] eqn:Hparse.
    + eexists _, _. split; [by apply fetchVersions_parsed |].
      split; [by read_trace |]. split; [done | by read_trace].
    + eexists _, _. split; [by apply fetchVersions_parser_throws |].
      split; [by read_trace |]. split; [done | by read_trace].
Qed.

End Resolver_runs.

(** ** The properties on the plain platform *)

Lemma nothing_present_in_empty_world (fileName : string) (dirs : list string) :
  ∀ dir, dir ∈ dirs → ¬ present empty_world fileName dir.
Proof. intros dir _. apply not_elem_of_empty. Qed.

Lemma download_uses_local_copy_witness :
  let env := env_of (Some "/tmp/cache") true transfer_ok in
  let w := {| files := {["/tmp/cache/crosswalk-14.44.360.4.zip"]}; trace := [] |} in
  ∃ before dir after w',
    download_localDirs env "./out" = before ++ dir :: after ∧
    (∀ dir', dir' ∈ before → ¬ present w (download_filename "14.44.360.4") dir') ∧
    present w (download_filename "14.44.360.4") dir ∧
    download env stable_resolver "14.44.360.4" "./out" w = (Returned, w') ∧
    select is_download_callback (new_events w w') =
      [download_callback
         (Some (Path_join dir (download_filename "14.44.360.4"))) None] ∧
    select is_network (new_events w w') = [] ∧
    files w' = files w.
Proof.
  intros env w.
  apply (download_uses_local_copy env stable_resolver "14.44.360.4" "./out" w).
  exists "/tmp/cache". split.
  - vm_compute. do 2 right. left.
  - vm_compute. reflexivity.
Defined.

Lemma download_failure_leaves_no_file_witness :
  let env := env_of None true transfer_failed in
  ∃ w',
    download env stable_resolver "14.44.360.4" "out" empty_world = (Returned, w') ∧
    select is_finish (new_events empty_world w') = [] ∧
    (Path_join "out" (download_filename "14.44.360.4") ∉ files w') ∧
    select is_download_callback (new_events empty_world w') =
      [download_callback None (completion (network env))].
Proof.
  intros env.
  apply (download_failure_leaves_no_file env stable_resolver
           "14.44.360.4" "out" empty_world).
  - apply nothing_present_in_empty_world.
  - reflexivity.
  - reflexivity.
Defined.

Lemma download_search_order_witness :
  let env := env_of (Some "/tmp/cache") true transfer_ok in
  let w := {| files := {["/tmp/cache/crosswalk-14.44.360.4.zip";
                         "crosswalk-14.44.360.4.zip"]}; trace := [] |} in
  download_localDirs env "./out" = ["./out"; EmptyString; "/tmp/cache"] ∧
  ∃ w',
    download env stable_resolver "14.44.360.4" "./out" w = (Returned, w') ∧
    select is_test (new_events w w') =
      probes (download_filename "14.44.360.4") (["./out"] ++ [EmptyString]) ∧
    select is_download_callback (new_events w w') =
      [download_callback
         (Some (Path_join EmptyString (download_filename "14.44.360.4"))) None].
Proof.
  intros env w.
  destruct (download_search_order env stable_resolver "14.44.360.4" "./out" w)
    as (_ & _ & Hcache & Hfirst & _).
  split.
  - apply Hcache; [reflexivity | discriminate].
  - apply (Hfirst ["./out"] EmptyString ["/tmp/cache"]).
    + reflexivity.
    + intros dir' ->%list_elem_of_singleton. vm_compute. intros Hin.
      discriminate Hin.
    + vm_compute. reflexivity.
Defined.

Lemma download_requests_canonical_url_witness :
  let env := env_of None true transfer_ok in
  ∃ w',
    download env stable_resolver "14.44.360.4" "out" empty_world = (Returned, w') ∧
    select is_network (new_events empty_world w') =
      [Downloader_new
         (BASE_URL +:+ "stable" +:+ "/" +:+ "14.44.360.4" +:+ "/" +:+
          "crosswalk-" +:+ "14.44.360.4" +:+ ".zip");
       Downloader_get].
Proof.
  intros env.
  apply (download_requests_canonical_url env stable_resolver "stable"
           "14.44.360.4" "out" empty_world).
  - reflexivity.
  - apply nothing_present_in_empty_world.
  - reflexivity.
Defined.

Lemma fetchVersions_delivers_parsed_versions_witness :
  let env := env_of None true transfer_ok in
  ∃ w',
    fetchVersions env stable_resolver empty_world = (Returned, w') ∧
    select is_fetchVersions_callback (new_events empty_world w') =
      [fetchVersions_callback (Some ["14.43.343.25"; "14.44.360.4"]) None] ∧
    files w' = files empty_world.
Proof.
  intros env.
  apply (fetchVersions_delivers_parsed_versions env stable_resolver
           ["14.43.343.25"; "14.44.360.4"] empty_world).
  - reflexivity.
  - vm_compute. reflexivity.
Defined.

Lemma errors_and_the_callback_witness :
  let env := env_of None false transfer_ok in
  ∃ message w',
    download env stable_resolver "14.44.360.4" "out" empty_world =
      (ThrownToCaller (FileCreationFailed message), w') ∧
    select is_download_callback (new_events empty_world w') = [] ∧
    select is_network (new_events empty_world w') = [].
Proof.
  intros env.
  apply (proj1 (proj2 (proj2 (errors_and_the_callback env stable_resolver
           "14.44.360.4" "out" empty_world)))).
  - apply nothing_present_in_empty_world.
  - reflexivity.
Defined.

(** C4 as stated does not hold.  When the download file cannot be created,
    [download] throws to its caller and the callback is not called; with a
    parser that throws on its input, [fetchVersions] lets the exception
    escape from the completion handler and the callback is not called. *)
Lemma errors_not_all_in_callback :
  (let result :=
     download (env_of None false transfer_ok) stable_resolver
       "14.44.360.4" "out" empty_world in
   result.1 =
     ThrownToCaller (FileCreationFailed "out/crosswalk-14.44.360.4.zip.part") ∧
   select is_download_callback (trace result.2) = []) ∧
  (let result :=
     fetchVersions (env_of None true transfer_ok)
       {| _application := strict_app; _channel := Some "stable" |}
       empty_world in
   result.1 = UncaughtInCallback (OtherError "ParseError") ∧
   select is_fetchVersions_callback (trace result.2) = []).
Proof. vm_compute. repeat split. Qed.

(** C9 as stated does not hold: when the download file cannot be created,
    the call ends without its callback having been called. *)
Lemma download_throws_without_callback :
  ¬ (∀ env this version defaultPath w,
       ∃ path errormsg,
         select is_download_callback
           (new_events w (download env this version defaultPath w).2) =
         [download_callback path errormsg]).
Proof.
  intros Hall.
  destruct (Hall (env_of None false transfer_ok) stable_resolver
              "14.44.360.4" "out" empty_world) as (path & errormsg & Hcalls).
  vm_compute in Hcalls. discriminate Hcalls.
Qed.

(** * More properties of the resolver *)

(** Pick the events of one kind out of a trace that is known, the calls on
    the progress indicator among them. *)
Ltac read_events :=
  rewrite ?new_events_logged, ?new_events_extended;
  rewrite ?select_app;
  rewrite ?select_probes by done;
  rewrite ?select_updates by done;
  cbv beta iota delta [select List.filter is_download_callback
    is_fetchVersions_callback is_network is_get is_finish is_test is_indicator];
  rewrite ?app_nil_l, ?app_nil_r.

Lemma select_updates_all (values : list Q) :
  select is_indicator (map indicator_update values) = map indicator_update values.
Proof. induction values as [|v values IH]; simpl; [done |]. f_equal. apply IH. Qed.

(** X1: whatever array the module variable refers to, a resolver that the
    constructor returns carries the application it was given, and its
    channel is either unset, when the channel given was falsy, or the channel
    given, which is then an element of that array. *)
Theorem constructed_channel_is_valid
    (σ : Store) (application : Application) (channel : jsstring)
    (this : AndroidDependencies_t) :
  AndroidDependencies σ application channel = Ok this →
  _application this = application ∧
  ((truthy channel = false ∧ _channel this = None) ∨
   (∃ c, channel = Some c ∧ c ≠ EmptyString ∧ _channel this = Some c ∧
         c ∈ deref σ CHANNELS)).
Proof.
  unfold AndroidDependencies. destruct (truthy channel) eqn:Htruthy.
  - apply truthy_true in Htruthy as (c & -> & Hc).
    destruct (Z.eqb_spec (indexOf (deref σ CHANNELS) (Some c)) (-1))
      as [Habsent | Hfound]; [done |].
    intros [= <-]. split; [done |]. right. exists c. repeat split; try done.
    destruct (decide (c ∈ deref σ CHANNELS)) as [Hin | Hout]; [done |].
    by apply indexOf_absent in Hout.
  - intros [= <-]. split; [done |]. by left.
Qed.

Lemma constructed_channel_is_valid_witness :
  _application stable_resolver = lines_app ∧
  ((truthy (Some "stable") = false ∧ _channel stable_resolver = None) ∨
   (∃ c, Some "stable" = Some c ∧ c ≠ EmptyString ∧
         _channel stable_resolver = Some c ∧ c ∈ deref module_load CHANNELS)).
Proof.
  apply (constructed_channel_is_valid module_load lines_app (Some "stable")).
  reflexivity.
Defined.

(** X2: a resolver made without a channel (the constructor lets a falsy
    channel pass) asks for the versions index of a channel named
    undefined: the one request of [fetchVersions] goes to [BASE_URL]
    followed by [undefined/]. *)
Theorem fetchVersions_without_channel
    (application : Application) (channel : jsstring)
    (this : AndroidDependencies_t) (env : Env) (w : World) :
  truthy channel = false →
  AndroidDependencies module_load application channel = Ok this →
  ∃ outcome w',
    fetchVersions env this w = (outcome, w') ∧
    select is_network (new_events w w') =
      [Downloader_new (BASE_URL +:+ "undefined/"); Downloader_get].
Proof.
  intros Hfalsy Hnew. unfold AndroidDependencies in Hnew.
  rewrite Hfalsy in Hnew. injection Hnew as <-.
  destruct (truthy (completion (network env))) eqn:Herr.
  - eexists _, _. split; [by apply fetchVersions_failed |]. by read_events.
  - destruct (IndexParser_parse application (received env))
      as [versions | e] eqn:Hparse.
    + eexists _, _. split; [by apply fetchVersions_parsed |]. by read_events.
    + eexists _, _. split; [by apply fetchVersions_parser_throws |].
      by read_events.
Qed.

Lemma fetchVersions_without_channel_witness :
  ∃ outcome w',
    fetchVersions (env_of None true transfer_ok)
      {| _application := lines_app; _channel := None |} empty_world =
      (outcome, w') ∧
    select is_network (new_events empty_world w') =
      [Downloader_new (BASE_URL +:+ "undefined/"); Downloader_get].
Proof.
  apply (fetchVersions_without_channel lines_app (Some EmptyString)).
  - reflexivity.
  - reflexivity.
Defined.

(** X3: [fetchVersions] makes one request whatever happens afterwards (the
    transfer fails, the listing is parsed, the parser throws): one
    [Downloader] for [BASE_URL] followed by the channel and a slash, one
    [get].  Every progress value goes to the indicator in the order
    reported, the indicator is closed once, after them, and no file is
    touched. *)
Theorem fetchVersions_one_request
    (env : Env) (this : AndroidDependencies_t) (w : World) :
  ∃ outcome w',
    fetchVersions env this w = (outcome, w') ∧
    select is_network (new_events w w') =
      [Downloader_new (BASE_URL +:+ to_str (_channel this) +:+ "/");
       Downloader_get] ∧
    select is_indicator (new_events w w') =
      map indicator_update (progress_values (network env)) ++
      [indicator_done EmptyString] ∧
    files w' = files w.
Proof.
  destruct (truthy (completion (network env))) eqn:Herr.
  - eexists _, _. split; [by apply fetchVersions_failed |].
    split; [by read_events |]. split; [| done].
    read_events. by rewrite select_updates_all.
  - destruct (IndexParser_parse (_application this) (received env))
      as [versions | e] eqn:Hparse.
    + eexists _, _. split; [by apply fetchVersions_parsed |].
      split; [by read_events |]. split; [| done].
      read_events. by rewrite select_updates_all.
    + eexists _, _. split; [by apply fetchVersions_parser_throws |].
      split; [by read_events |]. split; [| done].
      read_events. by rewrite select_updates_all.
Qed.






Section More_of_download.
Context `{Platform}.

Implicit Types (env : Env) (this : AndroidDependencies_t) (w : World).
Implicit Types (version defaultPath dir : string) (dirs : list string).


(** X5: a download that goes through (nothing found locally, the stream
    created, no error from the transfer) makes one request, calls
    [handler.finish] once, with the value of the environment variable, and
    ends by calling the callback with the path of the file in the
    destination directory, where the file then is; with the variable set, a
    copy is in the cache directory too, and the callback still gets the path
    in the destination directory. *)
Theorem download_success env this version defaultPath w :
  let filename := download_filename version in
  let final := Path_join defaultPath filename in
  (∀ dir, dir ∈ download_localDirs env defaultPath →
          ¬ present w filename dir) →
  can_create env (temp_name final) = true →
  truthy (completion (network env)) = false →
  ∃ w',
    download env this version defaultPath w = (Returned, w') ∧
    select is_get (new_events w w') = [Downloader_get] ∧
    select is_finish (new_events w w') =
      [handler_finish (CROSSWALK_APP_TOOLS_CACHE_DIR env)] ∧
    last (new_events w w') = Some (download_callback (Some final) None) ∧
    select is_download_callback (new_events w w') =
      [download_callback (Some final) None] ∧
    final ∈ files w' ∧
    (truthy (CROSSWALK_APP_TOOLS_CACHE_DIR env) = true →
     Path_join (to_str (CROSSWALK_APP_TOOLS_CACHE_DIR env)) filename ∈ files w').
Proof.
  intros filename final Hmiss Hcreate Herr.
  destruct (download_finished env this version defaultPath w Hmiss Hcreate Herr)
    as (fs & Hrun & Hfinal & Hcache).
  eexists. split; [exact Hrun |].
  split; [by read_events |]. split; [by read_events |].
  split; [| split; [by read_events | by split]].
  rewrite new_events_extended.
  rewrite !app_assoc.
  change [handler_finish (CROSSWALK_APP_TOOLS_CACHE_DIR env);
          download_callback (Some (Path_join defaultPath (download_filename version))) None]
    with ([handler_finish (CROSSWALK_APP_TOOLS_CACHE_DIR env)] ++
          [download_callback (Some (Path_join defaultPath (download_filename version))) None]).
  rewrite app_assoc. apply last_snoc.
Qed.

(** X6: whenever a transfer is started (nothing found locally, the stream
    created), every progress value it reports goes to the indicator, in the
    order reported, the indicator is closed once, after them, and the
    callback is the last call made. *)
Theorem download_progress env this version defaultPath w :
  let filename := download_filename version in
  (∀ dir, dir ∈ download_localDirs env defaultPath →
          ¬ present w filename dir) →
  can_create env (temp_name (Path_join defaultPath filename)) = true →
  ∃ w' path errormsg,
    download env this version defaultPath w = (Returned, w') ∧
    select is_indicator (new_events w w') =
      map indicator_update (progress_values (network env)) ++
      [indicator_done EmptyString] ∧
    last (new_events w w') = Some (download_callback path errormsg).
Proof.
  intros filename Hmiss Hcreate.
  destruct (truthy (completion (network env))) eqn:Herr.
  - eexists _, _, _. split; [by apply download_failed |]. split.
    + read_events. by rewrite select_updates_all.
    + rewrite new_events_extended, app_assoc. apply last_snoc.
  - destruct (download_finished env this version defaultPath w Hmiss Hcreate Herr)
      as (fs & Hrun & _).
    eexists _, _, _. split; [exact Hrun |]. split.
    + read_events. by rewrite select_updates_all.
    + rewrite new_events_extended.
      match goal with
      | |- last (?evs ++ [?finish; ?cb]) = _ =>
          change (evs ++ [finish; cb]) with (evs ++ [finish] ++ [cb]);
          rewrite !app_assoc; apply last_snoc
      end.
Qed.

Lemma download_localDirs_head env defaultPath :
  ∃ after, download_localDirs env defaultPath = [] ++ defaultPath :: after.
Proof. unfold download_localDirs. destruct (truthy _); eauto. Qed.

(** X7: after a download that went through, downloading the same version to
    the same directory again, with whatever resolver, environment and
    network, makes no request: the callback gets the same path as the first
    time and the files stay as they are. *)
Theorem download_again env env' this this' version defaultPath w :
  let filename := download_filename version in
  let final := Path_join defaultPath filename in
  (∀ dir, dir ∈ download_localDirs env defaultPath →
          ¬ present w filename dir) →
  can_create env (temp_name final) = true →
  truthy (completion (network env)) = false →
  ∃ w1 w2,
    download env this version defaultPath w = (Returned, w1) ∧
    select is_download_callback (new_events w w1) =
      [download_callback (Some final) None] ∧
    download env' this' version defaultPath w1 = (Returned, w2) ∧
    select is_download_callback (new_events w1 w2) =
      [download_callback (Some final) None] ∧
    select is_network (new_events w1 w2) = [] ∧
    files w2 = files w1.
Proof.
  intros filename final Hmiss Hcreate Herr.
  destruct (download_finished env this version defaultPath w Hmiss Hcreate Herr)
    as (fs & Hrun & Hfinal & _).
  destruct (download_localDirs_head env' defaultPath) as [after Hdirs].
  eexists _, _. split; [exact Hrun |]. split; [by read_events |].
  split.
  - eapply download_hit; [exact Hdirs | | exact Hfinal].
    intros dir' Hnil. by apply elem_of_nil in Hnil.
  - split; [by read_events |]. split; [by read_events | done].
Qed.



End More_of_download.

(** * [downloadWebP] *)

Lemma filter_map_none {A B : Type} (p : B → bool) (f : A → B) (l : list A) :
  (∀ a, p (f a) = false) → List.filter p (map f l) = [].
Proof.
  intros Hp. induction l as [|a l IH]; simpl; [done |]. by rewrite Hp.
Qed.

(** Pick the events of one kind out of what [downloadWebP] did. *)
Ltac read_webp :=
  rewrite ?List.filter_app;
  rewrite ?(filter_map_none _ webp_indicator_update) by done;
  cbv beta iota delta [List.filter is_webp_callback is_webp_get is_webp_rm
    is_webp_error is_webp_finishing];
  rewrite ?app_nil_l, ?app_nil_r.

Lemma downloadWebP_filename_unknown (platform arch version : string) :
  platform ∉ ["windows"; "linux"; "mac"] →
  downloadWebP_filename platform arch version = EmptyString.
Proof.
  intros Hout. unfold downloadWebP_filename.
  repeat case_decide; subst; try done; exfalso; apply Hout;
    rewrite !elem_of_cons; auto.
Qed.

(** X10: the file name of the WebP archive is empty exactly when the
    platform is none of windows, linux and mac; the URL requested is then
    the releases directory itself. *)
Theorem downloadWebP_unknown_platform (platform arch version : string) :
  (platform ∉ ["windows"; "linux"; "mac"] →
     downloadWebP_filename platform arch version = EmptyString ∧
     downloadWebP_url platform arch version =
       "http://downloads.webmproject.org/releases/webp/") ∧
  (platform ∈ ["windows"; "linux"; "mac"] →
     downloadWebP_filename platform arch version ≠ EmptyString).
Proof.
  split.
  - intros Hout. unfold downloadWebP_url.
    by rewrite downloadWebP_filename_unknown.
  - intros Hin. unfold downloadWebP_filename.
    repeat case_decide; subst; try discriminate.
    exfalso. revert Hin. rewrite !elem_of_cons, elem_of_nil.
    intros [?|[?|[?|[]]]]; done.
Qed.

Lemma downloadWebP_unknown_platform_witness :
  downloadWebP_filename "darwin" "x64" "0.4.3" = EmptyString ∧
  downloadWebP_url "darwin" "x64" "0.4.3" =
    "http://downloads.webmproject.org/releases/webp/".
Proof.
  apply (proj1 (downloadWebP_unknown_platform "darwin" "x64" "0.4.3")).
  not_a_channel.
Defined.

Section WebP_runs.
Context `{Platform} `{NodePaths}.

Implicit Types (env : Env) (r : WebPRun) (this : AndroidDependencies_t).
Implicit Types (version defaultPath : string).

(** X11: [downloadWebP] never uses a copy that is already there.  When the
    stream can be created it makes one request, whatever exists; an archive
    found at the download path is removed first. *)
Theorem downloadWebP_always_requests env r this version defaultPath :
  let filename := downloadWebP_filename (OS_platform r) (OS_arch r) version in
  can_create env (temp_name (Path_join defaultPath filename)) = true →
  ∃ evs,
    downloadWebP env r this version defaultPath = (Returned, evs) ∧
    List.filter is_webp_get evs = [webp_Downloader_get] ∧
    (file_there r = true →
     ∃ after,
       evs = [webp_test (Path_join defaultPath filename);
              webp_rm "-f" (Path_join defaultPath filename)] ++ after).
Proof.
  intros filename Hcreate. unfold downloadWebP. fold filename.
  unfold final_path. cbn [_dirPath _fileName DownloadHandler].
  rewrite Hcreate. eexists. split; [done |]. split.
  - unfold downloadWebP_get_cb.
    destruct (file_there r), (extract_there r),
      (truthy (completion (network env))), (extraction r); by read_webp.
  - intros ->. eexists. cbn [app]. reflexivity.
Qed.

(** X12: when the transfer reports an error, [downloadWebP] calls its
    callback once, with [null] for the path and the error message, and
    neither finishes the download nor extracts or copies anything. *)
Theorem downloadWebP_transfer_error env r this version defaultPath :
  let filename := downloadWebP_filename (OS_platform r) (OS_arch r) version in
  can_create env (temp_name (Path_join defaultPath filename)) = true →
  truthy (completion (network env)) = true →
  ∃ evs,
    downloadWebP env r this version defaultPath = (Returned, evs) ∧
    List.filter is_webp_callback evs =
      [webp_callback None (completion (network env))] ∧
    List.filter is_webp_finishing evs = [].
Proof.
  intros filename Hcreate Herr. unfold downloadWebP. fold filename.
  unfold final_path. cbn [_dirPath _fileName DownloadHandler].
  rewrite Hcreate. eexists. split; [done |].
  unfold downloadWebP_get_cb. rewrite Herr.
  destruct (file_there r), (extract_there r); split; by read_webp.
Qed.

(** X13: when the archive cannot be extracted, [downloadWebP] writes one
    error and never calls its callback: the caller is told neither of
    success nor of failure. *)
Theorem downloadWebP_extraction_failure
    env r this version defaultPath (stack : jsstring) :
  let filename := downloadWebP_filename (OS_platform r) (OS_arch r) version in
  can_create env (temp_name (Path_join defaultPath filename)) = true →
  truthy (completion (network env)) = false →
  extraction r = Some stack →
  ∃ evs,
    downloadWebP env r this version defaultPath = (Returned, evs) ∧
    List.filter is_webp_callback evs = [] ∧
    List.filter is_webp_error evs =
      [webp_output_error
         ("Fail to extract " +:+ Path_join defaultPath filename +:+
          String newline EmptyString +:+ to_str stack)].
Proof.
  intros filename Hcreate Herr Hextract. unfold downloadWebP. fold filename.
  unfold final_path. cbn [_dirPath _fileName DownloadHandler].
  rewrite Hcreate. eexists. split; [done |].
  unfold downloadWebP_get_cb, final_path.
  cbn [_dirPath _fileName DownloadHandler]. rewrite Herr, Hextract.
  destruct (file_there r), (extract_there r); split; by read_webp.
Qed.

(** X14: when the transfer and the extraction succeed, the last thing
    [downloadWebP] does is to call its callback, once, with the path of the
    converter: [cwebp.exe] on windows and [cwebp] elsewhere, in the [src]
    directory two levels above the module, whatever the version and the
    destination directory. *)
Theorem downloadWebP_success env r this version defaultPath :
  let filename := downloadWebP_filename (OS_platform r) (OS_arch r) version in
  let webpPath :=
    Path_join (Path_join (Path_dirname (Path_dirname __dirname)) "src")
      (if decide (OS_platform r = "windows") then "cwebp.exe" else "cwebp") in
  can_create env (temp_name (Path_join defaultPath filename)) = true →
  truthy (completion (network env)) = false →
  extraction r = None →
  ∃ evs,
    downloadWebP env r this version defaultPath = (Returned, evs) ∧
    List.filter is_webp_callback evs = [webp_callback (Some webpPath) None] ∧
    last evs = Some (webp_callback (Some webpPath) None).
Proof.
  intros filename webpPath Hcreate Herr Hextract. unfold downloadWebP.
  fold filename. unfold final_path. cbn [_dirPath _fileName DownloadHandler].
  rewrite Hcreate. eexists. split; [done |].
  unfold downloadWebP_get_cb, final_path.
  cbn [_dirPath _fileName DownloadHandler]. rewrite Herr, Hextract.
  split.
  - destruct (file_there r), (extract_there r); by read_webp.
  - rewrite !app_assoc.
    match goal with
    | |- last (?evs ++ [?t; ?c; ?cb]) = _ =>
        change (evs ++ [t; c; cb]) with (evs ++ [t; c] ++ [cb]);
        rewrite !app_assoc; apply last_snoc
    end.
Qed.

(** X15: on a platform that is none of windows, linux and mac, the path
    [downloadWebP] tests and removes is the destination directory joined
    with the empty file name.  When [Path.dirname] and [Path.basename] put
    that path together again and something exists there, the directory
    is removed with [rm -rf] before anything is downloaded. *)
Theorem downloadWebP_removes_destination env r this version defaultPath :
  let dest := Path_join defaultPath EmptyString in
  OS_platform r ∉ ["windows"; "linux"; "mac"] →
  Path_join (Path_dirname dest) (Path_basename dest ".tar.gz") = dest →
  extract_there r = true →
  ∃ outcome before after,
    downloadWebP env r this version defaultPath =
      (outcome, before ++ [webp_test dest; webp_rm "-rf" dest] ++ after) ∧
    List.filter is_webp_get before = [].
Proof.
  intros dest Hplatform Hjoin Hthere.
  pose proof (downloadWebP_filename_unknown (OS_platform r) (OS_arch r)
                version Hplatform) as Hname.
  assert (OS_platform r ≠ "windows") as Hwin.
  { intros Heq. apply Hplatform. rewrite Heq. by left. }
  unfold downloadWebP. rewrite Hname. fold dest.
  unfold downloadWebP_extractPath. rewrite decide_False by done.
  rewrite Hjoin, Hthere.
  destruct (can_create env _), (file_there r).
  - eexists _, [webp_test dest; webp_rm "-f" dest], _. by split.
  - eexists _, [webp_test dest], _. by split.
  - eexists _, [webp_test dest; webp_rm "-f" dest], _. by split.
  - eexists _, [webp_test dest], _. by split.
Qed.

End WebP_runs.

(** * [Main.collectArgs] *)

Lemma string_length_app (s t : string) :
  String.length (s +:+ t) = (String.length s + String.length t)%nat.
Proof.
  induction s as [|c s IH]; [done |].
  change (S (String.length (s +:+ t)) = S (String.length s + String.length t)).
  by rewrite IH.
Qed.

Section collectArgs_facts.
Context {V : Type} (truthy_value : V → bool).

Implicit Types (platformId key name : string) (argsSpec : list string).
Implicit Types (object : string → option V) (args : gmap string V).

Lemma collectArgs_step_offered platformId object args key :
  collectArgs_step truthy_value platformId (Some object) args key =
    match collectArgs_offered truthy_value object key with
    | Some v => set_property args (collectArgs_argName platformId key) v
    | None => args
    end.
Proof.
  unfold collectArgs_step, collectArgs_offered, collectArgs_argName.
  destruct (object _) as [v|]; [| done]. by destruct (truthy_value v).
Qed.

Lemma set_property_lookup args argName (v : V) name :
  set_property args argName v !! name =
    if decide (argName = name ∧ name ≠ "__proto__") then Some v else args !! name.
Proof.
  unfold set_property. case_decide as Hproto.
  - rewrite decide_False; [done |]. intros [-> Hne]. done.
  - destruct (decide (argName = name)) as [-> | Hne].
    + rewrite decide_True by done. apply lookup_insert_eq.
    + rewrite decide_False by (by intros [? _]). by apply lookup_insert_ne.
Qed.

(** What is collected under a name: the last value offered for a key of the
    spec that is cut down to that name. *)
Lemma collectArgs_lookup_last platformId object argsSpec name :
  Main_collectArgs truthy_value platformId (Some object) argsSpec !! name =
    if decide (name = "__proto__") then None
    else
      last (omap (λ key,
                    if decide (collectArgs_argName platformId key = name)
                    then collectArgs_offered truthy_value object key
                    else None) argsSpec).
Proof.
  unfold Main_collectArgs.
  induction argsSpec as [|key argsSpec IH] using rev_ind.
  - simpl. by case_decide.
  - rewrite foldl_snoc, collectArgs_step_offered, omap_app. simpl.
    destruct (collectArgs_offered truthy_value object key) as [v|] eqn:Hoffer.
    + rewrite set_property_lookup, IH.
      destruct (decide (name = "__proto__")) as [-> | Hname].
      * rewrite decide_False; [done |]. by intros [_ ?].
      * destruct (decide (collectArgs_argName platformId key = name)) as [Heq | Hne].
        -- rewrite decide_True by done. by rewrite last_snoc.
        -- rewrite decide_False by (by intros [? _]). by rewrite app_nil_r.
    + rewrite IH. case_decide; [done |]. case_decide; by rewrite app_nil_r.
Qed.

Lemma collectArgs_absent platformId argsSpec :
  Main_collectArgs truthy_value platformId None argsSpec = ∅.
Proof.
  unfold Main_collectArgs.
  induction argsSpec as [|key argsSpec IH] using rev_ind; [done |].
  by rewrite foldl_snoc, IH.
Qed.

Lemma collectArgs_lookup_Some platformId object argsSpec name (v : V) :
  Main_collectArgs truthy_value platformId (Some object) argsSpec !! name =
    Some v →
  truthy_value v = true ∧
  name ≠ "__proto__" ∧
  ∃ key,
    key ∈ argsSpec ∧
    object (substring_from 2 key) = Some v ∧
    name = substring_from (String.length platformId + 1) (substring_from 2 key).
Proof.
  rewrite collectArgs_lookup_last. case_decide as Hname; [done |].
  intros Hlast. apply last_Some_elem_of in Hlast.
  apply list_elem_of_omap in Hlast as (key & Hkey & Hoffer).
  case_decide as Hcut; [| done].
  unfold collectArgs_offered in Hoffer.
  change (String.length "--") with 2 in Hoffer.
  destruct (object (substring_from 2 key)) as [v'|] eqn:Hobject; [| done].
  destruct (truthy_value v') eqn:Htruthy; [| done].
  injection Hoffer as ->. split; [done |]. split; [done |].
  exists key. split; [done |]. split; [done |].
  rewrite <- Hcut. unfold collectArgs_argName.
  rewrite string_length_app. reflexivity.
Qed.

(** X16: with no arguments at all ([allArgs] is [null]), or with arguments
    that offer no truthy value under any key of the spec, [collectArgs]
    returns an empty object. *)
Theorem collectArgs_nothing_offered platformId argsSpec :
  Main_collectArgs truthy_value platformId None argsSpec = ∅ ∧
  ∀ object,
    (∀ key, key ∈ argsSpec →
            collectArgs_offered truthy_value object key = None) →
    Main_collectArgs truthy_value platformId (Some object) argsSpec = ∅.
Proof.
  split; [apply collectArgs_absent |].
  intros object Hnone. unfold Main_collectArgs.
  induction argsSpec as [|key argsSpec IH] using rev_ind; [done |].
  rewrite foldl_snoc, collectArgs_step_offered.
  rewrite (Hnone key) by (apply elem_of_app; right; by left).
  apply IH. intros key' Hin. apply Hnone, elem_of_app. by left.
Qed.

(** X17: every value in the object [collectArgs] returns is truthy and is
    the value the arguments hold under a key of the spec without its two
    dashes; the name it is collected under is that key without its first
    characters, as many as the platform prefix has, and is never
    [__proto__]. *)
Theorem collectArgs_collects_offered platformId object argsSpec name (v : V) :
  Main_collectArgs truthy_value platformId (Some object) argsSpec !! name =
    Some v →
  truthy_value v = true ∧
  name ≠ "__proto__" ∧
  ∃ key,
    key ∈ argsSpec ∧
    object (substring_from 2 key) = Some v ∧
    name = substring_from (String.length platformId + 1) (substring_from 2 key).
Proof. apply collectArgs_lookup_Some. Qed.


(** X19: [collectArgs] never compares the platform prefix with the key: it
    only cuts as many characters as the prefix has.  Two platform names of
    the same length collect the same object from the same arguments. *)
Theorem collectArgs_prefix_unchecked
    platformId (platformId' : string)
    (allArgs : option (string → option V)) argsSpec :
  String.length platformId = String.length platformId' →
  Main_collectArgs truthy_value platformId allArgs argsSpec =
  Main_collectArgs truthy_value platformId' allArgs argsSpec.
Proof.
  intros Hlen. unfold Main_collectArgs. f_equal.
  unfold collectArgs_step. by rewrite !string_length_app, Hlen.
Qed.

End collectArgs_facts.

(** * [Main]: loading the platform, [create], [update], [build] *)

Section Main_facts.
Context `{Platform} `{NodePaths}.
Context {V : Type} (truthy_value : V → bool).

Implicit Types (loadDefault : option PlatformInfo) (args : BuildArgs (V := V)).
Implicit Types (extraArgs : option (string → option V)).

Lemma Main_build__build_debug (is_release : V → bool) (release : V) args :
  Main_build__build is_release release args = [project_build "debug"].
Proof. reflexivity. Qed.

(** X20: when the default platform cannot be loaded ([loadDefault] answers
    [null]), [instantiatePlatform] does not return [null]: reading
    [platformInfo.platformId] throws.  [create] (once the template is
    copied), [update] and [build] therefore end with that exception, and
    neither write an error nor call their callback. *)
Theorem Main_platform_not_loaded
    (templatePath appPath : string) (packageId version : jsstring) extraArgs
    (is_release : V → bool) (release : V) (www_there www_link : bool) args :
  Main_instantiatePlatform (V := V) None = ([], Throw TypeError) ∧
  (∀ run,
     run ∈ [Main_create truthy_value templatePath appPath true None
              packageId extraArgs;
            Main_update truthy_value None version extraArgs;
            Main_build truthy_value is_release release None
              www_there www_link args] →
     run.1 = ThrownToCaller TypeError ∧
     List.filter is_main_callback run.2 = [] ∧
     List.filter is_main_error run.2 = []).
Proof.
  split; [done |]. intros run Hrun.
  rewrite !elem_of_cons, elem_of_nil in Hrun.
  destruct Hrun as [-> | [-> | [-> | []]]]; by repeat split.
Qed.

(** X21: whatever the arguments, two positional arguments of which the last
    is release among them, every call of [project.build] that [build] or the
    function it gives to [importWebP] makes has the configuration
    [debug]. *)
Theorem Main_build_always_debug
    (is_release : V → bool) (release : V) loadDefault
    (www_there www_link : bool) args
    (wwwPath : string) (webp_args : V) (convert_throws : option exn)
    (webpPath : jsstring) (configId : string) :
  project_build configId ∈
    (Main_build truthy_value is_release release loadDefault
       www_there www_link args).2 ++
    (Main_build_webp_cb is_release release args wwwPath webp_args
       convert_throws webpPath).2 →
  configId = "debug".
Proof.
  unfold Main_build, Main_build_webp_cb, Main_instantiatePlatform.
  rewrite !Main_build__build_debug.
  destruct loadDefault as [[platformId [project|]]|];
    destruct (truthy webpPath), convert_throws;
    repeat match goal with
    | |- context [match android_webp args with _ => _ end] =>
        destruct (android_webp args)
    | |- context [if truthy_value ?v then _ else _] =>
        destruct (truthy_value v)
    end;
    destruct www_there, www_link;
    cbn [info_create info_platformId fst snd app];
    rewrite ?elem_of_app, ?elem_of_cons, ?elem_of_nil;
    intros Hin; decompose [or] Hin; first [congruence | done].
Qed.


(** X23: with [android-webp] given, [build] starts no build and calls no
    callback before it returns: it only asks the project for the converter.
    The build is started from the function given to [importWebP], and only
    for a truthy path; for a falsy one that function does nothing at all, so
    that neither a build nor the callback follows. *)
Theorem Main_build_webp_waits
    (is_release : V → bool) (release : V)
    (platformInfo : PlatformInfo) (project : Project)
    (www_there www_link : bool) args (webp_args : V)
    (wwwPath : string) (convert_throws : option exn) (webpPath : jsstring) :
  info_create platformInfo = Some project →
  android_webp args = Some webp_args →
  truthy_value webp_args = true →
  let run :=
    Main_build truthy_value is_release release (Some platformInfo)
      www_there www_link args in
  run.1 = Returned ∧
  last run.2 = Some (project_importWebP "0.4.3") ∧
  List.filter is_project_build run.2 = [] ∧
  List.filter is_main_callback run.2 = [] ∧
  (truthy webpPath = false →
   Main_build_webp_cb is_release release args wwwPath webp_args
     convert_throws webpPath = (Returned, [])).
Proof.
  intros Hproject Hwebp Htruthy. unfold Main_build, Main_instantiatePlatform.
  rewrite Hproject, Hwebp, Htruthy.
  split; [done |].
  split; [by destruct www_there, www_link |].
  split; [by destruct www_there, www_link |].
  split; [by destruct www_there, www_link |].
  intros Hfalsy. unfold Main_build_webp_cb. by rewrite Hfalsy.
Qed.

End Main_facts.

(** * The further properties on the plain platform *)

Lemma download_success_witness :
  ∃ w',
    download (env_of (Some "/tmp/cache") true transfer_ok) stable_resolver
      "14.44.360.4" "out" empty_world = (Returned, w') ∧
    "out/crosswalk-14.44.360.4.zip" ∈ files w' ∧
    "/tmp/cache/crosswalk-14.44.360.4.zip" ∈ files w'.
Proof.
  destruct (download_success (env_of (Some "/tmp/cache") true transfer_ok)
              stable_resolver "14.44.360.4" "out" empty_world)
    as (w' & Hrun & _ & _ & _ & _ & Hfinal & Hcache).
  - apply nothing_present_in_empty_world.
  - reflexivity.
  - reflexivity.
  - exists w'. split; [exact Hrun |]. split; [exact Hfinal |].
    apply Hcache. reflexivity.
Defined.

Lemma download_progress_witness :
  ∃ w' path errormsg,
    download (env_of None true transfer_failed) stable_resolver
      "14.44.360.4" "out" empty_world = (Returned, w') ∧
    select is_indicator (new_events empty_world w') =
      [indicator_update (1 # 2)%Q; indicator_done EmptyString] ∧
    last (new_events empty_world w') = Some (download_callback path errormsg).
Proof.
  apply (download_progress (env_of None true transfer_failed) stable_resolver
           "14.44.360.4" "out" empty_world).
  - apply nothing_present_in_empty_world.
  - reflexivity.
Defined.

Lemma download_again_witness :
  ∃ w1 w2,
    download (env_of None true transfer_ok) stable_resolver
      "14.44.360.4" "out" empty_world = (Returned, w1) ∧
    download (env_of None false transfer_failed) stable_resolver
      "14.44.360.4" "out" w1 = (Returned, w2) ∧
    select is_network (new_events w1 w2) = [].
Proof.
  destruct (download_again (env_of None true transfer_ok)
              (env_of None false transfer_failed)
              stable_resolver stable_resolver "14.44.360.4" "out" empty_world)
    as (w1 & w2 & Hfirst & _ & Hsecond & _ & Hnet & _).
  - apply nothing_present_in_empty_world.
  - reflexivity.
  - reflexivity.
  - by exists w1, w2.
Defined.



Lemma downloadWebP_always_requests_witness :
  ∃ evs,
    downloadWebP (env_of None true transfer_ok) linux_run stable_resolver
      "0.4.3" "out" = (Returned, evs) ∧
    List.filter is_webp_get evs = [webp_Downloader_get] ∧
    List.filter is_webp_rm evs =
      [webp_rm "-f" "out/libwebp-0.4.3-linux-x86-64.tar.gz"].
Proof.
  destruct (downloadWebP_always_requests (env_of None true transfer_ok)
              linux_run stable_resolver "0.4.3" "out")
    as (evs & Hrun & Hget & _).
  - reflexivity.
  - exists evs. split; [exact Hrun |]. split; [exact Hget |].
    injection Hrun as <-. reflexivity.
Defined.

Lemma downloadWebP_transfer_error_witness :
  ∃ evs,
    downloadWebP (env_of None true transfer_failed) linux_run stable_resolver
      "0.4.3" "out" = (Returned, evs) ∧
    List.filter is_webp_callback evs =
      [webp_callback None (Some "Download failed")] ∧
    List.filter is_webp_finishing evs = [].
Proof.
  apply (downloadWebP_transfer_error (env_of None true transfer_failed)
           linux_run stable_resolver "0.4.3" "out").
  - reflexivity.
  - reflexivity.
Defined.

Lemma downloadWebP_extraction_failure_witness :
  ∃ evs,
    downloadWebP (env_of None true transfer_ok) darwin_run stable_resolver
      "0.4.3" "out" = (Returned, evs) ∧
    List.filter is_webp_callback evs = [].
Proof.
  destruct (downloadWebP_extraction_failure (env_of None true transfer_ok)
              darwin_run stable_resolver "0.4.3" "out"
              (Some "Error: not an archive"))
    as (evs & Hrun & Hcalls & _).
  - reflexivity.
  - reflexivity.
  - reflexivity.
  - by exists evs.
Defined.

Lemma downloadWebP_success_witness :
  ∃ evs,
    downloadWebP (env_of None true transfer_ok) linux_run stable_resolver
      "0.4.3" "out" = (Returned, evs) ∧
    last evs =
      Some (webp_callback
              (Some "/usr/lib/node_modules/crosswalk-app-tools/src/cwebp") None).
Proof.
  destruct (downloadWebP_success (env_of None true transfer_ok)
              linux_run stable_resolver "0.4.3" "out")
    as (evs & Hrun & _ & Hlast).
  - reflexivity.
  - reflexivity.
  - reflexivity.
  - by exists evs.
Defined.

Lemma downloadWebP_removes_destination_witness :
  ∃ outcome before after,
    downloadWebP (env_of None true transfer_ok) darwin_run stable_resolver
      "0.4.3" "out" =
      (outcome, before ++ [webp_test "out/"; webp_rm "-rf" "out/"] ++ after) ∧
    List.filter is_webp_get before = [].
Proof.
  refine (downloadWebP_removes_destination (env_of None true transfer_ok)
            darwin_run stable_resolver "0.4.3" "out" _ _ _).
  - not_a_channel.
  - reflexivity.
  - reflexivity.
Defined.

Lemma collectArgs_nothing_offered_witness :
  Main_collectArgs argv_truthy "android" (Some beta_args) ["--android-verbose"] = ∅.
Proof.
  apply (proj2 (collectArgs_nothing_offered argv_truthy "android"
                  ["--android-verbose"])).
  intros key ->%list_elem_of_singleton. reflexivity.
Defined.


Lemma collectArgs_collects_offered_witness :
  argv_truthy (ArgString "beta") = true ∧
  "crosswalk" ≠ "__proto__" ∧
  ∃ key,
    key ∈ ["--android-verbose"; "--android-crosswalk"] ∧
    beta_args (substring_from 2 key) = Some (ArgString "beta") ∧
    "crosswalk" =
      substring_from (String.length "android" + 1) (substring_from 2 key).
Proof.
  apply (collectArgs_collects_offered argv_truthy "android" beta_args
           ["--android-verbose"; "--android-crosswalk"] "crosswalk"
           (ArgString "beta")).
  vm_compute. reflexivity.
Defined.

Lemma collectArgs_prefix_unchecked_witness :
  Main_collectArgs argv_truthy "android" (Some beta_args)
    ["--android-crosswalk"] =
  Main_collectArgs argv_truthy "windows" (Some beta_args)
    ["--android-crosswalk"].
Proof.
  apply (collectArgs_prefix_unchecked argv_truthy "android" "windows").
  reflexivity.
Defined.

Lemma Main_platform_not_loaded_witness :
  (Main_update argv_truthy None (Some "14.44.360.4") (Some beta_args)).1 =
    ThrownToCaller TypeError.
Proof.
  refine (proj1 (proj2 (Main_platform_not_loaded argv_truthy "template" "app"
            (Some "com.example.app") (Some "14.44.360.4") (Some beta_args)
            argv_is_release (ArgString "release") false false
            {| positional := []; android_webp := None |}) _ _)).
  right. left.
Defined.

Lemma Main_build_always_debug_witness :
  let args := {| positional := [ArgString "build"; ArgString "release"];
                 android_webp := None |} in
  ∃ configId,
    project_build configId ∈
      (Main_build argv_truthy argv_is_release (ArgString "release")
         (Some android_info) false false args).2 ∧
    configId = "debug".
Proof.
  intros args. exists "debug".
  assert (project_build "debug" ∈
      (Main_build argv_truthy argv_is_release (ArgString "release")
         (Some android_info) false false args).2) as Hin.
  { vm_compute. do 2 right. left. }
  split; [exact Hin |].
  apply (Main_build_always_debug argv_truthy argv_is_release
           (ArgString "release") (Some android_info) false false args
           "www" (ArgFlag true) None None "debug").
  apply elem_of_app. left. exact Hin.
Defined.


Lemma Main_build_webp_waits_witness :
  let run :=
    Main_build argv_truthy argv_is_release (ArgString "release")
      (Some android_info) true false
      {| positional := [ArgString "build"];
         android_webp := Some (ArgString "80 80 100") |} in
  run.1 = Returned ∧ List.filter is_project_build run.2 = [].
Proof.
  destruct (Main_build_webp_waits argv_truthy argv_is_release
              (ArgString "release") android_info android_project true false
              {| positional := [ArgString "build"];
                 android_webp := Some (ArgString "80 80 100") |}
              (ArgString "80 80 100") "www" None None)
    as (Hreturned & _ & Hbuild & _).
  - reflexivity.
  - reflexivity.
  - reflexivity.
  - by split.
Defined.
